(** * squid-cli, [src/utils.ts]: the deploy-pipeline poller and the
      [<name>@<version>] parser

    A shallow embedding of [pollDeployPipelines], [doUntil],
    [buildPipelineErrorMessage] and [parseNameAndVersion], and of
    [buildRemoteUrlFromGit], [getEnv], [parseEnvFile] and [parseEnvs].

    The poller talks to four collaborators that are not part of the file:
    the REST call [getDeployPipeline], the oclif output sink
    ([command.log], [command.error], [ux.action.start], [ux.action.stop]),
    chalk's [dim] and the log streamer [streamSquidLogs].  Calls to them are
    recorded, in order, as a trace of [event]s; what they give back is an
    input of the model: the scripted answers of [getDeployPipeline], the
    lines the streamer delivers and the function [dim]. *)

From Stdlib Require Import String Ascii List Bool Arith ZArith NArith Lia.
From Stdlib Require FMapList FMapFacts OrderedTypeEx.
Import ListNotations.

Local Open Scope list_scope.
Local Open Scope string_scope.

(* ================================================================== *)
(** ** JavaScript strings and arrays, as far as the poller uses them *)
(* ================================================================== *)

Module Js.

(** The line feed of ['\n']. *)
Definition nl : string := String (ascii_of_nat 10) EmptyString.

(** A value that is a string, or [undefined]/[null] ([None]). *)
Definition value := option string.

(** Truthiness, as [filter((v) => v)] tests it: [undefined], [null] and
    the empty string are falsy. *)
Definition truthy (v : value) : bool :=
  match v with
  | Some EmptyString => false
  | Some (String _ _) => true
  | None => false
  end.

(** Truthiness of a string, as the test [errorMessage ? .. : ..]. *)
Definition nonempty (s : string) : bool := truthy (Some s).

(** How a value prints inside a template literal or in [join]. *)
Definition to_string (v : value) : string :=
  match v with
  | Some s => s
  | None => "undefined"
  end.

(** [Array.prototype.join(sep)] on an array of strings. *)
Fixpoint join (sep : string) (l : list string) : string :=
  match l with
  | [] => ""
  | [x] => x
  | x :: (_ :: _) as rest => x ++ sep ++ join sep rest
  end.

(** [String.prototype.startsWith]. *)
Fixpoint startsWith (needle hay : string) : bool :=
  match needle, hay with
  | EmptyString, _ => true
  | String a n', String b h' => Ascii.eqb a b && startsWith n' h'
  | String _ _, EmptyString => false
  end.

(** [String.prototype.includes]: [needle] occurs somewhere in [hay]. *)
Fixpoint includes (needle hay : string) : bool :=
  startsWith needle hay ||
  match hay with
  | EmptyString => false
  | String _ h' => includes needle h'
  end.

(** The same as a proposition: [hay] is [pre ++ needle ++ suf]. *)
Definition contains (hay needle : string) : Prop :=
  exists pre suf, hay = pre ++ needle ++ suf.

End Js.

(* ================================================================== *)
(** ** The trace of calls and the monad of the loop body *)
(* ================================================================== *)

(** One call to a collaborator. *)
Inductive event : Type :=
| GetDeployPipeline (squidName versionName : string)
    (** [getDeployPipeline(squidName, versionName)]: one poll *)
| ActionStop (msg : string)         (** [CliUx.ux.action.stop(msg)] *)
| ActionStart (action : string)     (** [CliUx.ux.action.start(action)] *)
| CommandLog (message : string)     (** [command.log(message)] *)
| CommandError (message : string)   (** [command.error(message)] *)
| StreamSquidLogs (orgCode squidName versionName : string)
    (** [streamSquidLogs({ orgCode, squidName, versionName, onLog })] *)
| Sleep (ms : Z).                   (** [setTimeout(resolve, ms)], awaited *)

(** How a piece of code ends: it returns a value or throws. *)
Inductive completion (A : Type) : Type :=
| Normal (a : A)
| Thrown (message : string).
Arguments Normal {A} a.
Arguments Thrown {A} message.

(** The two variables the closures of [pollDeployPipelines] write:
    [lastStatus] lives across ticks ([None] is [undefined]),
    [isLogPrinted] is declared anew on every tick. *)
Record store : Type := mkStore {
  lastStatus : option string;
  isLogPrinted : bool
}.

(** A computation reads and writes the store, appends to the trace and
    returns or throws.  The trace and the store survive a throw. *)
Definition M (A : Type) : Type := store -> list event * store * completion A.

Definition ret {A} (a : A) : M A := fun s => ([], s, Normal a).

Definition bind {A B} (m : M A) (k : A -> M B) : M B :=
  fun s =>
    match m s with
    | (t1, s1, Normal a) =>
        match k a s1 with
        | (t2, s2, c) => ((t1 ++ t2)%list, s2, c)
        end
    | (t1, s1, Thrown e) => (t1, s1, Thrown e)
    end.

Definition emit (e : event) : M unit := fun s => ([e], s, Normal tt).
Definition throw {A} (message : string) : M A := fun s => ([], s, Thrown message).
Definition get_lastStatus : M (option string) := fun s => ([], s, Normal (lastStatus s)).
Definition set_lastStatus (v : string) : M unit :=
  fun s => ([], mkStore (Some v) (isLogPrinted s), Normal tt).
Definition get_isLogPrinted : M bool := fun s => ([], s, Normal (isLogPrinted s)).
Definition set_isLogPrinted (b : bool) : M unit :=
  fun s => ([], mkStore (lastStatus s) b, Normal tt).

Declare Scope poll_scope.
Delimit Scope poll_scope with poll.
Notation "x <- m ;; k" := (bind m (fun x => k))
  (at level 61, m at next level, right associativity) : poll_scope.
Notation "m ;; k" := (bind m (fun _ => k))
  (at level 61, right associativity) : poll_scope.
Local Open Scope poll_scope.

(** [for (const x of l) await f(x)]. *)
Fixpoint forEach {A} (f : A -> M unit) (l : list A) : M unit :=
  match l with
  | [] => ret tt
  | x :: rest => f x ;; forEach f rest
  end.

(** [command.error(message)]: oclif's [Command.error] has the return type
    [never]; it throws the error it reports. *)
Definition command_error (message : string) : M Empty_set :=
  emit (CommandError message) ;; throw message.

(** What is read off a finished run. *)
Definition trace_of {A} (r : list event * store * completion A) : list event :=
  fst (fst r).
Definition store_of {A} (r : list event * store * completion A) : store :=
  snd (fst r).
Definition completion_of {A} (r : list event * store * completion A) : completion A :=
  snd r.

(* ================================================================== *)
(** ** [pollDeployPipelines] and [doUntil] *)
(* ================================================================== *)

Module Poller.
Import Js.

(** Modelled from the spec: [DeployPipelineStatusEnum] is declared in
    [rest-client/routes/pipeline], which is not among the sources.  The
    spec names its five members; a status travels as a string
    ([lastStatus] is declared [string]), each member being its own name. *)
Definition CREATED : string := "CREATED".
Definition IMAGE_BUILDING : string := "IMAGE_BUILDING".
Definition IMAGE_PUSHING : string := "IMAGE_PUSHING".
Definition DEPLOYING : string := "DEPLOYING".
Definition OK : string := "OK".

(** Modelled from the spec: the snapshot [getDeployPipeline] resolves to
    (its type is declared in the same missing module): identifier, status,
    error flag, the log lines so far and an optional comment.  [id] is the
    identifier as a template literal prints it. *)
Record DeployPipeline : Type := mkPipeline {
  id : string;
  status : string;
  isErrorOccurred : bool;
  logs : list string;
  comment : value
}.

(** The argument object of [pollDeployPipelines], without [command],
    whose methods are events.  [verbose] may be left out ([None]). *)
Record Args : Type := mkArgs {
  orgCode : string;
  squidName : string;
  versionName : string;
  deploymentUrl : string;
  verbose : option bool
}.

(** The default of the destructuring pattern: [verbose = true]. *)
Definition verbose_or_default (a : Args) : bool :=
  match verbose a with
  | Some b => b
  | None => true
  end.

(** [buildPipelineErrorMessage(text, errorMessage)]. *)
Definition buildPipelineErrorMessage (text errorMessage : string) : string :=
  text ++ " " ++ (if nonempty errorMessage then ": " ++ errorMessage else "").

(** How [doUntil] ends in the model: the loop returned, or the scripted
    answers ran out while it was still polling. *)
Inductive loop_end : Type := Returned | StillPolling.

(** [3000], the [pause] handed to [doUntil]. *)
Definition pause : Z := 3000.

Section WithCollaborators.

(** chalk's [dim]. *)
Variable dim : string -> string.
(** The lines [streamSquidLogs] delivers to [onLog] before it resolves. *)
Variable streamed : list string.

(** Modelled from the spec: [streamSquidLogs] lives in [./api], which is
    not among the sources.  By the spec it delivers each line to the
    callback once, in order, and resolves when the stream ends. *)
Definition streamSquidLogs (orgCode squidName versionName : string)
    (onLog : string -> M unit) : M unit :=
  emit (StreamSquidLogs orgCode squidName versionName) ;;
  forEach onLog streamed.

Section WithArgs.

Variable a : Args.

(** The template literal [traceDebug]; [pipeline?.id] of a missing
    pipeline prints as [undefined]. *)
Definition traceDebug (pipeline : option DeployPipeline) : string :=
  nl ++ "      ------" ++ nl ++
  "      Please report to t.me/HydraDevs " ++ nl ++
  "      " ++ dim "Squid:" ++ " " ++ squidName a ++ nl ++
  "      " ++ dim "Version:" ++ " " ++ versionName a ++ nl ++
  "      " ++ dim "Deploy:" ++ " " ++ to_string (option_map id pipeline) ++ nl ++
  "      ".

(** [[...pipeline.logs, pipeline.comment].filter((v) => v).join('\n')]. *)
Definition debugLines (pipeline : DeployPipeline) : list string :=
  map to_string
    (filter truthy (map Some (logs pipeline) ++ [comment pipeline])%list).

Definition debugText (pipeline : DeployPipeline) : string :=
  dim (join nl (debugLines pipeline)).

(** The closure [printDebug]. *)
Definition printDebug (pipeline : DeployPipeline) : M unit :=
  printed <- get_isLogPrinted ;;
  if verbose_or_default a && negb printed then
    emit (CommandLog (debugText pipeline)) ;;
    set_isLogPrinted true
  else ret tt.

(** [pipeline.status !== lastStatus]. *)
Definition status_differs (s : string) (last : option string) : bool :=
  match last with
  | Some l => negb (s =? l)
  | None => true
  end.

(** One of the four stage cases of the [switch]: start the spinner,
    and on [isErrorOccurred] dump and fail, else ask for another tick. *)
Definition stage (pipeline : DeployPipeline) (spinner failure : string)
    (trace : string) : M bool :=
  emit (ActionStart spinner) ;;
  if isErrorOccurred pipeline then
    printDebug pipeline ;;
    command_error (buildPipelineErrorMessage failure trace) ;;
    ret true
  else ret false.

(** The callback handed to [doUntil]; [response] is what this tick's
    [getDeployPipeline] resolves to ([None]: no pipeline). *)
Definition fn (response : option DeployPipeline) : M bool :=
  emit (GetDeployPipeline (squidName a) (versionName a)) ;;
  let trace := traceDebug response in
  set_isLogPrinted false ;;
  match response with
  | None => ret true
  | Some pipeline =>
      last <- get_lastStatus ;;
      (if status_differs (status pipeline) last then
         set_lastStatus (status pipeline) ;;
         emit (ActionStop "✔️")
       else ret tt) ;;
      if status pipeline =? CREATED then
        stage pipeline "◷ Preparing your squid"
          "❌ An error occurred while building the squid" trace
      else if status pipeline =? IMAGE_BUILDING then
        stage pipeline "◷ Building your squid"
          "❌ An error occurred while building the squid" trace
      else if status pipeline =? IMAGE_PUSHING then
        stage pipeline "◷ Publishing your squid"
          "❌ An error occurred while publishing the squid" trace
      else if status pipeline =? DEPLOYING then
        stage pipeline "◷ Deploying your squid"
          "❌ An error occurred while deploying the squid" trace
      else if status pipeline =? OK then
        printDebug pipeline ;;
        emit (CommandLog
          ("Squid is running up. Your squid will be shortly available at "
           ++ deploymentUrl a ++ " ")) ;;
        emit (ActionStart "Streaming logs from the squid") ;;
        streamSquidLogs (orgCode a) (squidName a) (versionName a)
          (fun l => emit (CommandLog l)) ;;
        ret true
      else
        printDebug pipeline ;;
        command_error
          "❌ An unexpected error occurred. Please report to Discord https://discord.gg/KRvRcBdhEE or SquidDevs https://t.me/HydraDevs" ;;
        ret true
  end.

End WithArgs.

(** [doUntil(fn, { pause })].  The loop has no bound of its own; the
    model runs it against the scripted answers of the collaborator
    [fn] awaits, one per call, and stops as [StillPolling] when they
    are used up.  A throw of [fn] leaves the loop at once. *)
Fixpoint doUntil {R} (fn : R -> M bool) (pause : Z) (script : list R)
    : M loop_end :=
  match script with
  | [] => ret StillPolling
  | r :: rest =>
      done <- fn r ;;
      if done then ret Returned
      else emit (Sleep pause) ;; doUntil fn pause rest
  end.

(** [lastStatus] is declared without a value, [isLogPrinted] does not
    exist before the first tick. *)
Definition initial : store := mkStore None false.

(** [pollDeployPipelines(args)] against the answers [script]. *)
Definition pollDeployPipelines (a : Args) (script : list (option DeployPipeline))
    : list event * store * completion loop_end :=
  doUntil (fn a) pause script initial.

End WithCollaborators.

End Poller.

(* ================================================================== *)
(** ** Regular expressions over UTF-16 code units *)
(* ================================================================== *)

Module Regex.

(** A JavaScript string is a sequence of UTF-16 code units; the two
    patterns of [parseNameAndVersion] carry no [u] flag, so they see the
    string unit by unit. *)
Definition jsstring : Type := list N.

(** The code units [.] refuses: LF, CR, LS (U+2028) and PS (U+2029). *)
Definition isLineTerminator (c : N) : bool :=
  ((c =? 10) || (c =? 13) || (c =? 8232) || (c =? 8233))%N.

Inductive regex : Type :=
| Empty                  (** matches nothing *)
| Eps                    (** the empty string *)
| Any                    (** any code unit *)
| Dot                    (** [.]: any code unit but a line terminator *)
| Chr (c : N)            (** a literal code unit *)
| Seq (r1 r2 : regex)
| Alt (r1 r2 : regex)
| Star (r : regex).

(** [r+]. *)
Definition Plus (r : regex) : regex := Seq r (Star r).

(** The strings a pattern matches in full. *)
Inductive lang : regex -> jsstring -> Prop :=
| lang_eps : lang Eps []
| lang_any c : lang Any [c]
| lang_dot c : isLineTerminator c = false -> lang Dot [c]
| lang_chr c : lang (Chr c) [c]
| lang_seq r1 r2 s1 s2 : lang r1 s1 -> lang r2 s2 -> lang (Seq r1 r2) (s1 ++ s2)%list
| lang_alt_l r1 r2 s : lang r1 s -> lang (Alt r1 r2) s
| lang_alt_r r1 r2 s : lang r2 s -> lang (Alt r1 r2) s
| lang_star_nil r : lang (Star r) []
| lang_star_cons r s1 s2 :
    lang r s1 -> lang (Star r) s2 -> lang (Star r) (s1 ++ s2)%list.

(** Does [r] match the empty string? *)
Fixpoint nullable (r : regex) : bool :=
  match r with
  | Empty | Any | Dot | Chr _ => false
  | Eps | Star _ => true
  | Seq r1 r2 => nullable r1 && nullable r2
  | Alt r1 r2 => nullable r1 || nullable r2
  end.

(** What is left of [r] after it has read the code unit [c]. *)
Fixpoint deriv (c : N) (r : regex) : regex :=
  match r with
  | Empty | Eps => Empty
  | Any => Eps
  | Dot => if isLineTerminator c then Empty else Eps
  | Chr d => if (c =? d)%N then Eps else Empty
  | Seq r1 r2 =>
      if nullable r1 then Alt (Seq (deriv c r1) r2) (deriv c r2)
      else Seq (deriv c r1) r2
  | Alt r1 r2 => Alt (deriv c r1) (deriv c r2)
  | Star r1 => Seq (deriv c r1) (Star r1)
  end.

(** [r] matches the whole of [s]. *)
Fixpoint matches (r : regex) (s : jsstring) : bool :=
  match s with
  | [] => nullable r
  | c :: rest => matches (deriv c r) rest
  end.

(** [r] matches somewhere in [s]: what [s.match(r)] being non-null, or
    [r.test(s)], tells for an unanchored pattern. *)
Definition found (r : regex) (s : jsstring) : bool :=
  matches (Seq (Star Any) (Seq r (Star Any))) s.

End Regex.

(* ================================================================== *)
(** ** [parseNameAndVersion] *)
(* ================================================================== *)

Module Parser.
Import Regex.

(** The code unit of ['@']. *)
Definition at_sign : N := 64.

(** The code units of an ASCII literal. *)
Definition units (s : string) : jsstring :=
  map N_of_ascii (list_ascii_of_string s).

(** [/.+@.+/gi]; the flag [i] changes nothing, neither [.] nor ['@']
    has a case. *)
Definition name_at_version : regex :=
  Seq (Plus Dot) (Seq (Chr at_sign) (Plus Dot)).

(** [(s.match(/.+@.+/gi) || []).length]: only whether it is [0] is asked,
    and it is [0] exactly when the pattern is found nowhere. *)
Definition no_name_at_version (s : jsstring) : bool :=
  negb (found name_at_version s).

(** [(s.match(/@/g) || []).length]: with the flag [g] the array holds one
    entry per match of the one-unit pattern, so one per ['@']. *)
Definition count_at (s : jsstring) : nat :=
  length (filter (N.eqb at_sign) s).

(** [s.split('@')]. *)
Fixpoint split_at (s : jsstring) : list jsstring :=
  match s with
  | [] => [[]]
  | c :: rest =>
      if (c =? at_sign)%N then [] :: split_at rest
      else match split_at rest with
           | piece :: pieces => (c :: piece) :: pieces
           | [] => [[c]]
           end
  end.

(** The returned object; an index past the end of the array reads
    [undefined] ([None]). *)
Record NameAndVersion : Type := mkNameAndVersion {
  squidName : option jsstring;
  versionName : option jsstring
}.

Definition parseNameAndVersion (nameAndVersion : jsstring) : M NameAndVersion :=
  (if no_name_at_version nameAndVersion || negb (count_at nameAndVersion =? 1)%nat
   then
     _ <- command_error
            "Required format: <name>@<version>. Symbol @ not allowed in names" ;;
     ret tt
   else ret tt) ;;
  let squidName := nth_error (split_at nameAndVersion) 0 in
  let versionName := nth_error (split_at nameAndVersion) 1 in
  ret (mkNameAndVersion squidName versionName).

(** The tokens the guard lets through, in the words of a reader: one
    ['@'] in all, with a code unit that is no line terminator directly
    before it and another directly after it. *)
Definition well_formed (s : jsstring) : Prop :=
  count_at s = 1
  /\ exists l1 x y l2,
       s = (l1 ++ x :: at_sign :: y :: l2)%list
       /\ isLineTerminator x = false /\ isLineTerminator y = false.

(** The message of the guard. *)
Definition required_format : string :=
  "Required format: <name>@<version>. Symbol @ not allowed in names".

End Parser.

(* ================================================================== *)
(** ** Reading a trace; sequences of snapshots *)
(* ================================================================== *)

Module Observe.
Import Js Poller.

(** The number of polls in a trace. *)
Definition polls (t : list event) : nat :=
  length (filter (fun e => match e with GetDeployPipeline _ _ => true | _ => false end) t).

(** The texts of the spinner starts, in order. *)
Definition starts (t : list event) : list string :=
  flat_map (fun e => match e with ActionStart x => [x] | _ => [] end) t.

(** The symbols of the spinner stops, in order. *)
Definition stops (t : list event) : list string :=
  flat_map (fun e => match e with ActionStop x => [x] | _ => [] end) t.

(** The texts handed to [command.log], in order. *)
Definition logged (t : list event) : list string :=
  flat_map (fun e => match e with CommandLog x => [x] | _ => [] end) t.

(** The messages handed to [command.error], in order. *)
Definition errors (t : list event) : list string :=
  flat_map (fun e => match e with CommandError x => [x] | _ => [] end) t.

(** The number of calls to the log streamer. *)
Definition streams (t : list event) : nat :=
  length (filter (fun e => match e with StreamSquidLogs _ _ _ => true | _ => false end) t).

(** The number of sleeps. *)
Definition sleeps (t : list event) : nat :=
  length (filter (fun e => match e with Sleep _ => true | _ => false end) t).

(** The four statuses with a stage case in the [switch]. *)
Definition is_stage (s : string) : bool :=
  (s =? CREATED) || (s =? IMAGE_BUILDING) || (s =? IMAGE_PUSHING) || (s =? DEPLOYING).

(** The five statuses the [switch] has a case for. *)
Definition recognized (s : string) : bool := is_stage s || (s =? OK).

(** The place of a status in the expected progression. *)
Definition rank (s : string) : option nat :=
  if s =? CREATED then Some 0
  else if s =? IMAGE_BUILDING then Some 1
  else if s =? IMAGE_PUSHING then Some 2
  else if s =? DEPLOYING then Some 3
  else if s =? OK then Some 4
  else None.

(** The spinner text of a recognized status. *)
Definition spinner (s : string) : string :=
  if s =? CREATED then "◷ Preparing your squid"
  else if s =? IMAGE_BUILDING then "◷ Building your squid"
  else if s =? IMAGE_PUSHING then "◷ Publishing your squid"
  else if s =? DEPLOYING then "◷ Deploying your squid"
  else "Streaming logs from the squid".

(** The stage word of the failure message of a stage status. *)
Definition stage_word (s : string) : string :=
  if s =? IMAGE_PUSHING then "publishing"
  else if s =? DEPLOYING then "deploying"
  else "building".

(** The failure text of a stage status. *)
Definition failure (s : string) : string :=
  "❌ An error occurred while " ++ stage_word s ++ " the squid".

(** The message of the [default] case. *)
Definition unexpected : string :=
  "❌ An unexpected error occurred. Please report to Discord https://discord.gg/KRvRcBdhEE or SquidDevs https://t.me/HydraDevs".

(** The line logged on [OK]. *)
Definition running_up (a : Args) : string :=
  "Squid is running up. Your squid will be shortly available at "
  ++ deploymentUrl a ++ " ".

(** What the transition test of a tick sends to the spinner. *)
Definition stop_events (s : string) (last : option string) : list event :=
  if status_differs s last then [ActionStop "✔️"] else [].

(** What [printDebug] sends to [command.log] when it is first called in
    a tick. *)
Definition dump_events (dim : string -> string) (a : Args) (p : DeployPipeline)
    : list event :=
  if verbose_or_default a then [CommandLog (debugText dim p)] else [].

(** The message of a stage failure. *)
Definition stage_failure (dim : string -> string) (a : Args) (p : DeployPipeline)
    : string :=
  buildPipelineErrorMessage (failure (status p)) (traceDebug dim a (Some p)).

(** The lines of the dump in the words of the specification: the log
    lines that are not empty, then the comment if there is one and it is
    not empty. *)
Definition kept_lines (p : DeployPipeline) : list string :=
  (filter nonempty (logs p)
   ++ match comment p with
      | Some c => if nonempty c then [c] else []
      | None => []
      end)%list.

(** The fixed banner at the head of [traceDebug]. *)
Definition banner : string :=
  "------" ++ nl ++ "      Please report to t.me/HydraDevs ".

(** A sequence of snapshots that only moves forward: every status is
    recognized, none carries the error flag, and no status comes before
    the one of the snapshot in front of it. *)
Fixpoint forward_from (floor : nat) (l : list DeployPipeline) : bool :=
  match l with
  | [] => true
  | p :: rest =>
      negb (isErrorOccurred p) &&
      match rank (status p) with
      | Some r => (floor <=? r)%nat && forward_from r rest
      | None => false
      end
  end.

Definition forward (l : list DeployPipeline) : bool := forward_from 0 l.

(** The statuses a sequence moves into: those that differ from the status
    before them, the first one differing from [last]. *)
Fixpoint transitions (last : option string) (l : list string) : list string :=
  match l with
  | [] => []
  | s :: rest =>
      if status_differs s last then s :: transitions (Some s) rest
      else transitions (Some s) rest
  end.

(** The snapshots up to and including the first [OK]. *)
Fixpoint upto_OK (l : list DeployPipeline) : list DeployPipeline :=
  match l with
  | [] => []
  | p :: rest => if status p =? OK then [p] else p :: upto_OK rest
  end.

(** Some snapshot reports [OK]. *)
Definition reaches_OK (l : list DeployPipeline) : bool :=
  existsb (fun p => status p =? OK) l.

End Observe.

(* ================================================================== *)
(** ** Sample runs *)
(* ================================================================== *)

Module Samples.
Import Js Poller.

(** chalk's [dim] when colours are off: the text itself. *)
Definition dim_plain (s : string) : string := s.

(** chalk's [dim] on a colour terminal, for a text that holds no escape
    code of its own: SGR 2 before, SGR 22 after, the style being closed
    before every line feed (and the carriage return in front of it) and
    opened again after it; the empty text stays empty. *)
Definition esc : string := String (ascii_of_nat 27) EmptyString.
Definition sgr_dim : string := esc ++ "[2m".
Definition sgr_normal : string := esc ++ "[22m".
Definition LF : ascii := ascii_of_nat 10.
Definition CR : ascii := ascii_of_nat 13.

Fixpoint encase (s : string) : string :=
  match s with
  | EmptyString => EmptyString
  | String c rest =>
      if Ascii.eqb c LF then sgr_normal ++ String c (sgr_dim ++ encase rest)
      else if Ascii.eqb c CR then
        match rest with
        | String d rest' =>
            if Ascii.eqb d LF
            then sgr_normal ++ String c (String d (sgr_dim ++ encase rest'))
            else String c (encase rest)
        | EmptyString => String c EmptyString
        end
      else String c (encase rest)
  end.

Definition dim_ansi (s : string) : string :=
  match s with
  | EmptyString => EmptyString
  | String _ _ => sgr_dim ++ encase s ++ sgr_normal
  end.

(** Squid [my-squid], version [v1], [verbose] left to its default. *)
Definition my_squid : Args :=
  mkArgs "my-org" "my-squid" "v1" "https://my-org.squids.live/v1/graphql" None.

(** The same call with [verbose: false]. *)
Definition my_squid_quiet : Args :=
  mkArgs "my-org" "my-squid" "v1" "https://my-org.squids.live/v1/graphql" (Some false).

(** A snapshot of deploy [1024] with two log lines around an empty one
    and no comment. *)
Definition snapshot (status : string) (isErrorOccurred : bool) : DeployPipeline :=
  mkPipeline "1024" status isErrorOccurred ["step 1"; ""; "step 2"] None.

(** The scenario of the specification:
    [CREATED, CREATED, IMAGE_BUILDING, OK], no error flag. *)
Definition scenario : list DeployPipeline :=
  [snapshot CREATED false; snapshot CREATED false;
   snapshot IMAGE_BUILDING false; snapshot OK false].

(** Two lines the streamer delivers. *)
Definition two_lines : list string := ["processor started"; "block 1"].

End Samples.

(* ================================================================== *)
(** ** Environment variables *)
(* ================================================================== *)

(** A [Record<string, string>]: an object with string keys, as a finite
    map.  What the functions below ask of an object is which keys it has
    and what they hold; the order in which its keys are listed is not
    modelled. *)
Module SMap := FMapList.Make OrderedTypeEx.String_as_OT.
Module SMapP := FMapFacts.Properties SMap.

(** The completion of one piece of code feeds the next, a throw ends both. *)
Definition and_then {A B} (c : completion A) (k : A -> completion B) : completion B :=
  match c with
  | Normal a => k a
  | Thrown e => Thrown e
  end.

Module Env.

Definition obj : Type := SMap.t string.

(** [{ ...a, ...b }]: the keys of [a] and of [b], those of [b] winning. *)
Definition spread (a b : obj) : obj := SMapP.update a b.

(** [Object.keys(o).length]. *)
Definition keys_length (o : obj) : nat := SMap.cardinal o.

(** The double quote of the template literals. *)
Definition quote : string := String (ascii_of_nat 34) EmptyString.

Section WithFiles.

(** dotenv's [parse], applied to a buffer that holds the given text. *)
Variable parse : string -> obj.
(** [existsSync(path)]. *)
Variable existsSync : string -> bool.
(** [readFileSync(path)]: the text of the file, or a throw. *)
Variable readFileSync : string -> completion string.

(** [getEnv(e)]. *)
Definition getEnv (e : string) : completion obj :=
  let variable := parse e in
  if (keys_length variable =? 0)%nat then
    Thrown ("❌ An error occurred during parsing variable " ++ quote ++ e ++ quote)
  else Normal variable.

(** [parseEnvFile(path)]. *)
Definition parseEnvFile (path : string) : completion obj :=
  if negb (existsSync path) then Normal (SMap.empty string)
  else
    and_then (readFileSync path) (fun text =>
    let envFile := parse text in
    Normal envFile).

(** [envFlags.forEach((e) => { envs = { ...envs, ...getEnv(e) } })]. *)
Fixpoint forEach_flag (envFlags : list string) (envs : obj) : completion obj :=
  match envFlags with
  | [] => Normal envs
  | e :: rest =>
      and_then (getEnv e) (fun variable =>
      forEach_flag rest (spread envs variable))
  end.

(** [parseEnvs(envFlags, envFilePath)]; either argument may be
    [undefined] ([None]). *)
Definition parseEnvs (envFlags : option (list string)) (envFilePath : option string)
    : completion obj :=
  and_then
    (match envFlags with
     | Some flags => forEach_flag flags (SMap.empty string)
     | None => Normal (SMap.empty string)
     end) (fun envs =>
  and_then
    (match envFilePath with
     | Some path => parseEnvFile path
     | None => Normal (SMap.empty string)
     end) (fun fileEnvs =>
  Normal (spread envs fileEnvs))).

(** What the flags give for a key: the value of the last flag that
    defines it. *)
Fixpoint last_defined (k : string) (envFlags : list string) : option string :=
  match envFlags with
  | [] => None
  | e :: rest =>
      match last_defined k rest with
      | Some v => Some v
      | None => SMap.find k (parse e)
      end
  end.

(** The message [getEnv] throws for the flag [e]. *)
Definition parsing_error (e : string) : string :=
  "❌ An error occurred during parsing variable " ++ quote ++ e ++ quote.

End WithFiles.

End Env.

(* ================================================================== *)
(** ** [buildRemoteUrlFromGit] *)
(* ================================================================== *)

Module Git.

(** [String.prototype.endsWith]: some tail of [s] is [suffix]. *)
Fixpoint endsWith (suffix s : string) : bool :=
  (s =? suffix) ||
  match s with
  | EmptyString => false
  | String _ rest => endsWith suffix rest
  end.

(** simple-git's [RemoteWithRefs]: [{ name, refs: { fetch, push } }]. *)
Record RemoteWithRefs : Type := mkRemote {
  name : string;
  refs_fetch : string;
  refs_push : string
}.

(** One call to simple-git, to cli-select or to [command.error]. *)
Inductive call : Type :=
| GetRemotes                           (** [git.getRemotes(true)] *)
| CliSelect (values : list string)     (** [cliSelect({ cleanup, values })] *)
| ListRemote (args : list string)      (** [git.listRemote(args)] *)
| Branch                               (** [git.branch()] *)
| Status                               (** [git.status()] *)
| Fetch                                (** [git.fetch()] *)
| Log (ref : string)                   (** [git.log(['-n', 1, ref])] *)
| Error (message : string) (code : option string).
                                       (** [command.error(message, { code })] *)

(** What the repository and the user answer: every call resolves or
    rejects. *)
Record Answers : Type := mkAnswers {
  remotes : completion (list RemoteWithRefs);
  selected : list string -> completion string;
      (** the [value] of what cli-select resolves to *)
  listRemote : list string -> completion string;
  current : completion string;
      (** [(await git.branch()).current] *)
  files : completion (option (list string));
      (** [(await git.status()).files] *)
  fetched : completion unit;
  latest : string -> completion (option string)
      (** [(await git.log(['-n', 1, ref])).latest], as its [hash] *)
}.

(** The calls made so far, and how the code ended. *)
Definition G (A : Type) : Type := list call * completion A.

Definition done {A} (a : A) : G A := ([], Normal a).

Definition next {A B} (m : G A) (k : A -> G B) : G B :=
  match m with
  | (t1, Normal a) =>
      match k a with
      | (t2, c) => ((t1 ++ t2)%list, c)
      end
  | (t1, Thrown e) => (t1, Thrown e)
  end.

(** Await a call. *)
Definition ask {A} (c : call) (answer : completion A) : G A := ([c], answer).

(** [command.error(message, { code })]: it throws what it reports. *)
Definition error {A} (message : string) (code : option string) : G A :=
  ([Error message code], Thrown message).

(** [promise.catch(() => { command.error(message, { code }) })]. *)
Definition catch_error {A} (m : G A) (message : string) (code : option string) : G A :=
  match m with
  | (t, Thrown _) => ((t ++ [Error message code])%list, Thrown message)
  | (t, Normal a) => (t, Normal a)
  end.

Declare Scope git_scope.
Delimit Scope git_scope with git.
Notation "x <- m ;; k" := (next m (fun x => k))
  (at level 61, m at next level, right associativity) : git_scope.
Notation "m ;; k" := (next m (fun _ => k))
  (at level 61, right associativity) : git_scope.
Local Open Scope git_scope.

(** Reading [.name] of [undefined]: the message of the [TypeError]. *)
Definition type_error : string :=
  "Cannot read properties of undefined (reading 'name')".

(** The double quote of the template literals. *)
Definition quote : string := String (ascii_of_nat 34) EmptyString.

(** [status.files && status.files.length]. *)
Definition has_files (files : option (list string)) : bool :=
  match files with
  | Some (_ :: _) => true
  | Some [] => false
  | None => false
  end.

(** [buildRemoteUrlFromGit(git, command)] against the answers [w]. *)
Definition buildRemoteUrlFromGit (w : Answers) : G string :=
  remotes <- ask GetRemotes (remotes w) ;;
  remoteUrl <-
    match remotes with
    | [] => error "The remotes were not found" (Some "1")
    | [only] => done (Some only)
    | _ :: _ :: _ =>
        selected <-
          catch_error
            (ask (CliSelect (map name remotes)) (selected w (map name remotes)))
            "Canceled" (Some "1") ;;
        done (find (fun remote => name remote =? selected) remotes)
    end ;;
  match remoteUrl with
  | None => ([], Thrown type_error)
  | Some remoteUrl =>
      catch_error
        (ask (ListRemote [name remoteUrl]) (listRemote w [name remoteUrl]))
        ("Remote url with name " ++ name remoteUrl ++ " not exists") (Some "1") ;;
      branch <- ask Branch (current w) ;;
      status_files <- ask Status (files w) ;;
      (if has_files status_files
       then error "There are unstaged or uncommitted changes" None
       else done tt) ;;
      ask Fetch (fetched w) ;;
      remoteBranchRefs <-
        ask (ListRemote [name remoteUrl; branch])
            (listRemote w [name remoteUrl; branch]) ;;
      (if remoteBranchRefs =? ""
       then error ("Remote branch " ++ quote ++ name remoteUrl ++ "/" ++ branch
                   ++ quote ++ " not exists") None
       else done tt) ;;
      localCommit <- ask (Log branch) (latest w branch) ;;
      remoteCommit <-
        ask (Log (name remoteUrl ++ "/" ++ branch))
            (latest w (name remoteUrl ++ "/" ++ branch)) ;;
      match localCommit, remoteCommit with
      | Some localHash, Some remoteHash =>
          if negb (localHash =? remoteHash) then
            error "Head origin commit is not the same as the local origin commit" None
          else
            done (refs_fetch remoteUrl
                  ++ (if endsWith ".git" (refs_fetch remoteUrl) then "" else ".git")
                  ++ "#" ++ remoteHash)
      | _, _ =>
          error "Head origin commit is not the same as the local origin commit" None
      end
  end.

(** The remote the function settles on, when it settles on one. *)
Definition chosen (w : Answers) : option RemoteWithRefs :=
  match remotes w with
  | Normal [only] => Some only
  | Normal ((_ :: _ :: _) as several) =>
      match selected w (map name several) with
      | Normal value => find (fun remote => name remote =? value) several
      | Thrown _ => None
      end
  | _ => None
  end.

(** Is the call a [git.fetch()], a [git.log], a prompt? *)
Definition is_fetch (c : call) : bool :=
  match c with Fetch => true | _ => false end.
Definition is_log (c : call) : bool :=
  match c with Log _ => true | _ => false end.
Definition is_prompt (c : call) : bool :=
  match c with CliSelect _ => true | _ => false end.

End Git.

(* ================================================================== *)
(** ** Where a run of the poller ends *)
(* ================================================================== *)

Module Pace.
Import Poller Observe.

(** An answer after which the loop sleeps and polls again: a found
    pipeline on a stage status without the error flag. *)
Definition transient (r : option DeployPipeline) : bool :=
  match r with
  | Some p => is_stage (status p) && negb (isErrorOccurred p)
  | None => false
  end.

(** The answers before the first one that is not transient. *)
Fixpoint leading (script : list (option DeployPipeline))
    : list (option DeployPipeline) :=
  match script with
  | [] => []
  | r :: rest => if transient r then r :: leading rest else []
  end.

(** The answers from the first one that is not transient on. *)
Fixpoint from_decisive (script : list (option DeployPipeline))
    : list (option DeployPipeline) :=
  match script with
  | [] => []
  | r :: rest => if transient r then from_decisive rest else r :: rest
  end.

(** The answers a run asks for: up to and including the first one that is
    not transient. *)
Definition polled (script : list (option DeployPipeline))
    : list (option DeployPipeline) :=
  (leading script ++ firstn 1 (from_decisive script))%list.

(** The statuses of the found pipelines among some answers. *)
Definition found_statuses (l : list (option DeployPipeline)) : list string :=
  flat_map (fun r => match r with Some p => [status p] | None => [] end) l.

(** The polls and sleeps of a trace, in order. *)
Definition beat (t : list event) : list event :=
  filter (fun e => match e with
                   | GetDeployPipeline _ _ | Sleep _ => true
                   | _ => false
                   end) t.

(** [n] times a poll followed by a sleep of [3000] ms. *)
Fixpoint rounds (a : Args) (n : nat) : list event :=
  match n with
  | 0 => []
  | S m => GetDeployPipeline (squidName a) (versionName a)
             :: Sleep 3000 :: rounds a m
  end.

(** [lastStatus] after the statuses [l] were seen. *)
Definition last_of (last : option string) (l : list string) : option string :=
  fold_left (fun _ s => Some s) l last.

End Pace.

(** The order of the calls of a trace. *)
Module GitOrder.
Import Git.

Definition is_status (c : call) : bool :=
  match c with Status => true | _ => false end.
Definition is_error (c : call) : bool :=
  match c with Error _ _ => true | _ => false end.

(** Every call that is a [what] has a call that is a [mark] somewhere
    before it ([seen]: a [mark] was met already). *)
Fixpoint preceded (mark what : call -> bool) (seen : bool) (t : list call) : bool :=
  match t with
  | [] => true
  | c :: rest =>
      (negb (what c) || seen) && preceded mark what (seen || mark c) rest
  end.

(** No call comes after a [command.error]. *)
Fixpoint error_is_last (t : list call) : bool :=
  match t with
  | [] => true
  | c :: rest =>
      (negb (is_error c) || match rest with [] => true | _ :: _ => false end)
      && error_is_last rest
  end.

(** The prompt for the remotes [rs]. *)
Definition prompt (rs : list RemoteWithRefs) : list call :=
  match rs with
  | _ :: _ :: _ => [CliSelect (map name rs)]
  | _ => []
  end.

(** The calls of a run in which nothing fails, on the remote [remote] and
    the branch [branch]. *)
Definition calls_to_the_end (rs : list RemoteWithRefs) (remote branch : string)
    : list call :=
  (GetRemotes :: prompt rs
   ++ [ListRemote [remote]; Branch; Status; Fetch; ListRemote [remote; branch];
       Log branch; Log (remote ++ "/" ++ branch)])%list.

End GitOrder.

(* ================================================================== *)
(** ** Sample environments and repositories *)
(* ================================================================== *)

Module MoreSamples.

(** A stand-in for dotenv's [parse] that knows three texts. *)
Definition parse (text : string) : Env.obj :=
  if text =? "PORT=80" then SMap.add "PORT" "80" (SMap.empty string)
  else if text =? "PORT=8080" then SMap.add "PORT" "8080" (SMap.empty string)
  else if text =? "HOST=db" then SMap.add "HOST" "db" (SMap.empty string)
  else SMap.empty string.

(** A file system with the one file [.env], which holds [PORT=8080]. *)
Definition existsSync (path : string) : bool := path =? ".env".
Definition readFileSync (path : string) : completion string :=
  if path =? ".env" then Normal "PORT=8080"
  else Thrown "ENOENT: no such file or directory".

Definition origin : Git.RemoteWithRefs :=
  Git.mkRemote "origin" "https://github.com/acme/squid" "https://github.com/acme/squid".
Definition upstream : Git.RemoteWithRefs :=
  Git.mkRemote "upstream" "git@github.com:subsquid/squid.git"
    "git@github.com:subsquid/squid.git".

(** A clean clone on [main], level with [origin/main] and
    [upstream/main], in which the user picks what [pick] says. *)
Definition clean (remotes : list Git.RemoteWithRefs) (pick : completion string)
    : Git.Answers :=
  Git.mkAnswers (Normal remotes) (fun _ => pick)
    (fun _ => Normal "4f2a refs/heads/main") (Normal "main") (Normal (Some []))
    (Normal tt) (fun _ => Normal (Some "4f2a")).

(** The same clone with one modified file. *)
Definition dirty (remotes : list Git.RemoteWithRefs) : Git.Answers :=
  Git.mkAnswers (Normal remotes) (fun _ => Normal "origin")
    (fun _ => Normal "4f2a refs/heads/main") (Normal "main")
    (Normal (Some ["src/processor.ts"]))
    (Normal tt) (fun _ => Normal (Some "4f2a")).

End MoreSamples.

(* ================================================================== *)
(** ** Strings: [includes] decides [contains] *)
(* ================================================================== *)

Section StringFacts.
Import Js.

Lemma append_assoc3 (x y z : string) : (x ++ y) ++ z = x ++ y ++ z.
Proof.
  induction x as [|c x IH]; simpl; [reflexivity | now rewrite IH].
Qed.

Lemma startsWith_spec (n h : string) :
  startsWith n h = true <-> exists suf, h = n ++ suf.
Proof.
  revert h; induction n as [|c n IH]; intros h; simpl.
  - split; [intros _; now exists h | reflexivity].
  - destruct h as [|d h].
    + split; [discriminate | intros [suf E]; discriminate].
    + rewrite andb_true_iff, IH. split.
      * intros [E [suf ->]]. apply Ascii.eqb_eq in E. subst d. now exists suf.
      * intros [suf E]. injection E as -> ->. split; [apply Ascii.eqb_refl | now exists suf].
Qed.

Lemma includes_spec (n h : string) :
  includes n h = true <-> contains h n.
Proof.
  unfold contains. induction h as [|d h IH].
  - simpl. rewrite orb_false_r, startsWith_spec. split.
    + intros [suf E]. now exists "", suf.
    + intros [pre [suf E]]. destruct pre; simpl in E.
      * now exists suf.
      * discriminate.
  - cbn [includes]. rewrite orb_true_iff, startsWith_spec, IH. split.
    + intros [[suf E] | [pre [suf E]]].
      * now exists "", suf.
      * exists (String d pre), suf. simpl. now rewrite E.
    + intros [pre [suf E]]. destruct pre as [|c pre]; simpl in E.
      * left. now exists suf.
      * right. injection E as _ E. now exists pre, suf.
Qed.

Lemma not_includes (n h : string) : includes n h = false -> ~ contains h n.
Proof.
  intros E C. apply includes_spec in C. congruence.
Qed.

Lemma contains_append_l (x h n : string) : contains h n -> contains (x ++ h) n.
Proof.
  intros [pre [suf ->]]. exists (x ++ pre), suf. now rewrite append_assoc3.
Qed.

Lemma contains_append_r (h x n : string) : contains h n -> contains (h ++ x) n.
Proof.
  intros [pre [suf ->]]. exists pre, (suf ++ x). now rewrite !append_assoc3.
Qed.

End StringFacts.

(* ================================================================== *)
(** ** One tick of the poller, case by case *)
(* ================================================================== *)

Section TickFacts.
Import Js Poller Observe.

Lemma is_stage_cases (s : string) :
  is_stage s = true ->
  s = CREATED \/ s = IMAGE_BUILDING \/ s = IMAGE_PUSHING \/ s = DEPLOYING.
Proof.
  unfold is_stage. rewrite !orb_true_iff, !String.eqb_eq. tauto.
Qed.

Lemma unrecognized_cases (s : string) :
  recognized s = false ->
  (s =? CREATED) = false /\ (s =? IMAGE_BUILDING) = false /\
  (s =? IMAGE_PUSHING) = false /\ (s =? DEPLOYING) = false /\ (s =? OK) = false.
Proof.
  unfold recognized, is_stage. rewrite !orb_false_iff. tauto.
Qed.

(** Every status falls in one of the three groups of the [switch]. *)
Lemma status_cases (s : string) :
  is_stage s = true \/ s = OK \/ recognized s = false.
Proof.
  unfold recognized. destruct (is_stage s); [now left | right].
  destruct (String.eqb_spec s OK); [now left | now right].
Qed.

Variable dim : string -> string.
Variable streamed : list string.
Variable a : Args.

(** After the transition test [lastStatus] is the status of the snapshot. *)
Lemma lastStatus_after (s : string) (last : option string) :
  (if status_differs s last then Some s else last) = Some s.
Proof.
  destruct last as [l|]; simpl; [|reflexivity].
  destruct (String.eqb_spec s l); simpl; congruence.
Qed.

Lemma forEach_log (st : store) :
  forEach (fun l => emit (CommandLog l)) streamed st
  = (map CommandLog streamed, st, Normal tt).
Proof.
  induction streamed as [|l ls IH]; [reflexivity|].
  simpl. unfold bind at 1. simpl. now rewrite IH.
Qed.

(** Unfold one tick down to its tests, leaving the tests folded. *)
Ltac open_tick :=
  unfold fn, stage, printDebug, stop_events, dump_events, stage_failure;
  cbn [id status isErrorOccurred logs comment lastStatus isLogPrinted] in *;
  cbv beta iota delta [bind emit ret get_lastStatus set_lastStatus
                       get_isLogPrinted set_isLogPrinted];
  cbn [lastStatus isLogPrinted].

(** Decide the transition test and the verbosity both ways. *)
Ltac split_tests :=
  repeat match goal with
  | |- context [status_differs ?x ?l] =>
      generalize (status_differs x l); intros [|]
  | |- context [verbose_or_default ?x] =>
      generalize (verbose_or_default x); intros [|]
  end.

Lemma fn_not_found (st : store) :
  fn dim streamed a None st
  = ([GetDeployPipeline (squidName a) (versionName a)],
     mkStore (lastStatus st) false, Normal true).
Proof. reflexivity. Qed.

Lemma fn_stage_continue (p : DeployPipeline) (st : store) :
  is_stage (status p) = true ->
  isErrorOccurred p = false ->
  fn dim streamed a (Some p) st
  = ((GetDeployPipeline (squidName a) (versionName a)
      :: stop_events (status p) (lastStatus st)
      ++ [ActionStart (spinner (status p))])%list,
     mkStore (Some (status p)) false, Normal false).
Proof.
  intros Hs He. rewrite <- (lastStatus_after (status p) (lastStatus st)).
  destruct p as [i s e l c], st as [last printed]. open_tick. subst e.
  apply is_stage_cases in Hs.
  destruct Hs as [-> | [-> | [-> | ->]]];
    split_tests; reflexivity.
Qed.

Lemma fn_stage_fail (p : DeployPipeline) (st : store) :
  is_stage (status p) = true ->
  isErrorOccurred p = true ->
  fn dim streamed a (Some p) st
  = ((GetDeployPipeline (squidName a) (versionName a)
      :: stop_events (status p) (lastStatus st)
      ++ [ActionStart (spinner (status p))]
      ++ dump_events dim a p
      ++ [CommandError (stage_failure dim a p)])%list,
     mkStore (Some (status p)) (verbose_or_default a),
     Thrown (stage_failure dim a p)).
Proof.
  intros Hs He. rewrite <- (lastStatus_after (status p) (lastStatus st)).
  destruct p as [i s e l c], st as [last printed]. open_tick. subst e.
  apply is_stage_cases in Hs.
  destruct Hs as [-> | [-> | [-> | ->]]];
    split_tests; reflexivity.
Qed.

Lemma fn_OK (p : DeployPipeline) (st : store) :
  status p = OK ->
  fn dim streamed a (Some p) st
  = ((GetDeployPipeline (squidName a) (versionName a)
      :: stop_events (status p) (lastStatus st)
      ++ dump_events dim a p
      ++ [CommandLog (running_up a);
          ActionStart "Streaming logs from the squid";
          StreamSquidLogs (orgCode a) (squidName a) (versionName a)]
      ++ map CommandLog streamed)%list,
     mkStore (Some (status p)) (verbose_or_default a),
     Normal true).
Proof.
  intros Hs. rewrite <- (lastStatus_after (status p) (lastStatus st)).
  destruct p as [i s e l c], st as [last printed]. open_tick. subst s.
  unfold streamSquidLogs, running_up.
  repeat match goal with
  | |- context [String.eqb ?x ?y] =>
      let b := eval vm_compute in (String.eqb x y) in
      change (String.eqb x y) with b
  end.
  cbv beta iota delta [bind emit ret].
  change (fun (l0 : string) (s0 : store) => ([CommandLog l0], s0, Normal tt))
    with (fun l0 : string => emit (CommandLog l0)).
  split_tests; cbn [andb negb isLogPrinted lastStatus app];
    rewrite !forEach_log; cbn [app]; rewrite ?app_nil_r; reflexivity.
Qed.

Lemma fn_unrecognized (p : DeployPipeline) (st : store) :
  recognized (status p) = false ->
  fn dim streamed a (Some p) st
  = ((GetDeployPipeline (squidName a) (versionName a)
      :: stop_events (status p) (lastStatus st)
      ++ dump_events dim a p
      ++ [CommandError unexpected])%list,
     mkStore (Some (status p)) (verbose_or_default a),
     Thrown unexpected).
Proof.
  intros Hs. rewrite <- (lastStatus_after (status p) (lastStatus st)).
  apply unrecognized_cases in Hs. destruct Hs as (H1 & H2 & H3 & H4 & H5).
  destruct p as [i s e l c], st as [last printed]. open_tick.
  rewrite H1, H2, H3, H4, H5.
  split_tests; reflexivity.
Qed.

(** A tick on a found pipeline leaves its status in [lastStatus]. *)
Lemma fn_lastStatus (p : DeployPipeline) (st : store) :
  lastStatus (store_of (fn dim streamed a (Some p) st)) = Some (status p).
Proof.
  destruct (status_cases (status p)) as [H | [H | H]].
  - destruct (isErrorOccurred p) eqn:E.
    + now rewrite fn_stage_fail.
    + now rewrite fn_stage_continue.
  - now rewrite fn_OK.
  - now rewrite fn_unrecognized.
Qed.

End TickFacts.

(* ================================================================== *)
(** ** The loop *)
(* ================================================================== *)

Section LoopFacts.
Import Poller.

Context {R : Type}.
Variable f : R -> M bool.
Variable ms : Z.

(** One turn of the loop. *)
Lemma doUntil_cons (r : R) (rest : list R) (st : store) :
  doUntil f ms (r :: rest) st =
  match f r st with
  | (t, st1, Normal true) => (t, st1, Normal Returned)
  | (t, st1, Normal false) =>
      match doUntil f ms rest st1 with
      | (t2, st2, c) => ((t ++ Sleep ms :: t2)%list, st2, c)
      end
  | (t, st1, Thrown e) => (t, st1, Thrown e)
  end.
Proof.
  cbn [doUntil]. unfold bind at 1.
  destruct (f r st) as [[t st1] [[|]|e]]; cbn.
  - now rewrite app_nil_r.
  - unfold bind, emit. cbn.
    destruct (doUntil f ms rest st1) as [[t2 st2] c]. reflexivity.
  - reflexivity.
Qed.

(** A script the loop polls through can be run in two parts. *)
Lemma doUntil_app (pre rest : list R) (st st1 : store) (t : list event) :
  doUntil f ms pre st = (t, st1, Normal StillPolling) ->
  doUntil f ms (pre ++ rest) st =
  match doUntil f ms rest st1 with
  | (t2, st2, c) => ((t ++ t2)%list, st2, c)
  end.
Proof.
  revert st t. induction pre as [|r pre IH]; intros st t H.
  - cbn in H. injection H as <- <-. cbn [app].
    now destruct (doUntil f ms rest st) as [[t2 st2] c].
  - cbn [app]. rewrite doUntil_cons in *.
    destruct (f r st) as [[t0 st0] [[|]|e]]; try discriminate.
    destruct (doUntil f ms pre st0) as [[t2 st2] c] eqn:E.
    injection H as Ht Hs Hc. subst t st2 c.
    rewrite (IH _ _ E).
    destruct (doUntil f ms rest st1) as [[t3 st3] c3].
    now rewrite <- app_assoc.
Qed.

(** Once the loop has returned or thrown, the rest of the script is
    never asked for. *)
Lemma doUntil_stops (pre rest : list R) (st st1 : store) (t : list event)
    (c : completion loop_end) :
  doUntil f ms pre st = (t, st1, c) ->
  c <> Normal StillPolling ->
  doUntil f ms (pre ++ rest) st = (t, st1, c).
Proof.
  revert st t. induction pre as [|r pre IH]; intros st t H Hc.
  - cbn in H. injection H as <- <- <-. congruence.
  - cbn [app]. rewrite doUntil_cons in *.
    destruct (f r st) as [[t0 st0] [[|]|e]]; try assumption.
    destruct (doUntil f ms pre st0) as [[t2 st2] c2] eqn:E.
    injection H as <- <- <-.
    now rewrite (IH _ _ E Hc).
Qed.

(** A script the loop polls through to its last answer was polled
    through before that answer, which asked for another tick. *)
Lemma doUntil_snoc (pre : list R) (r : R) (st st2 : store) (t : list event) :
  doUntil f ms (pre ++ [r]) st = (t, st2, Normal StillPolling) ->
  exists t1 st1 t2,
    doUntil f ms pre st = (t1, st1, Normal StillPolling) /\
    f r st1 = (t2, st2, Normal false).
Proof.
  revert st t. induction pre as [|r0 pre IH]; intros st t H.
  - cbn [app] in H. rewrite doUntil_cons in H.
    destruct (f r st) as [[t0 st0] [[|]|e]] eqn:E; try discriminate.
    cbn in H. injection H as <- <-.
    exists [], st, t0. split; [reflexivity | exact E].
  - cbn [app] in H. rewrite doUntil_cons in *.
    destruct (f r0 st) as [[t0 st0] [[|]|e]]; try discriminate.
    destruct (doUntil f ms (pre ++ [r]) st0) as [[t3 st3] c3] eqn:E.
    injection H as Ht Hs Hc. subst t st3 c3.
    destruct (IH _ _ E) as (t1 & st1 & t2 & H1 & H2).
    rewrite H1. now exists (t0 ++ Sleep ms :: t1)%list, st1, t2.
Qed.

End LoopFacts.

(* ================================================================== *)
(** ** Counting the events of a trace *)
(* ================================================================== *)

Section TraceFacts.
Import Js Poller Observe.

Lemma polls_app t1 t2 : polls (t1 ++ t2) = polls t1 + polls t2.
Proof. unfold polls. now rewrite filter_app, length_app. Qed.

Lemma sleeps_app t1 t2 : sleeps (t1 ++ t2) = sleeps t1 + sleeps t2.
Proof. unfold sleeps. now rewrite filter_app, length_app. Qed.

Lemma streams_app t1 t2 : streams (t1 ++ t2) = streams t1 + streams t2.
Proof. unfold streams. now rewrite filter_app, length_app. Qed.

Lemma starts_app t1 t2 : starts (t1 ++ t2) = (starts t1 ++ starts t2)%list.
Proof. apply flat_map_app. Qed.

Lemma stops_app t1 t2 : stops (t1 ++ t2) = (stops t1 ++ stops t2)%list.
Proof. apply flat_map_app. Qed.

Lemma logged_app t1 t2 : logged (t1 ++ t2) = (logged t1 ++ logged t2)%list.
Proof. apply flat_map_app. Qed.

Lemma errors_app t1 t2 : errors (t1 ++ t2) = (errors t1 ++ errors t2)%list.
Proof. apply flat_map_app. Qed.

(** The lines the streamer forwards are log events and nothing else. *)
Lemma forwarded_lines (l : list string) :
  polls (map CommandLog l) = 0 /\ sleeps (map CommandLog l) = 0 /\
  streams (map CommandLog l) = 0 /\ starts (map CommandLog l) = [] /\
  stops (map CommandLog l) = [] /\ errors (map CommandLog l) = [] /\
  logged (map CommandLog l) = l.
Proof.
  induction l as [|x l IH]; [now repeat split|].
  destruct IH as (H1 & H2 & H3 & H4 & H5 & H6 & H7).
  repeat split; try assumption. cbn. now f_equal.
Qed.

(** The transition test sends at most one stop and nothing else. *)
Lemma stop_events_counts (s : string) (last : option string) :
  polls (stop_events s last) = 0 /\ sleeps (stop_events s last) = 0 /\
  streams (stop_events s last) = 0 /\ starts (stop_events s last) = [] /\
  errors (stop_events s last) = [] /\ logged (stop_events s last) = [] /\
  stops (stop_events s last) = (if status_differs s last then ["✔️"] else []).
Proof.
  unfold stop_events. now destruct (status_differs s last).
Qed.

(** The debug dump is at most one log event and nothing else. *)
Lemma dump_events_counts dim (a : Args) (p : DeployPipeline) :
  polls (dump_events dim a p) = 0 /\ sleeps (dump_events dim a p) = 0 /\
  streams (dump_events dim a p) = 0 /\ starts (dump_events dim a p) = [] /\
  errors (dump_events dim a p) = [] /\ stops (dump_events dim a p) = [] /\
  logged (dump_events dim a p)
  = (if verbose_or_default a then [debugText dim p] else []).
Proof.
  unfold dump_events. now destruct (verbose_or_default a).
Qed.

End TraceFacts.

(** Count the events of a trace built from the pieces of a tick. *)
Ltac count_events :=
  repeat first
    [ rewrite polls_app | rewrite sleeps_app | rewrite streams_app
    | rewrite starts_app | rewrite stops_app | rewrite logged_app
    | rewrite errors_app ];
  repeat match goal with
  | |- context [Observe.stop_events ?s ?l] =>
      let H := fresh in
      pose proof (stop_events_counts s l) as H;
      destruct H as (? & ? & ? & ? & ? & ? & ?);
      generalize dependent (Observe.stop_events s l); intros
  | |- context [Observe.dump_events ?d ?a ?p] =>
      let H := fresh in
      pose proof (dump_events_counts d a p) as H;
      destruct H as (? & ? & ? & ? & ? & ? & ?);
      generalize dependent (Observe.dump_events d a p); intros
  | |- context [map CommandLog ?l] =>
      let H := fresh in
      pose proof (forwarded_lines l) as H;
      destruct H as (? & ? & ? & ? & ? & ? & ?);
      generalize dependent (map CommandLog l); intros
  end.

(** Count, then use what is known of each piece. *)
Ltac tally :=
  count_events;
  repeat match goal with
  | E : Observe.polls _ = _ |- _ => rewrite E
  | E : Observe.sleeps _ = _ |- _ => rewrite E
  | E : Observe.streams _ = _ |- _ => rewrite E
  | E : Observe.starts _ = _ |- _ => rewrite E
  | E : Observe.stops _ = _ |- _ => rewrite E
  | E : Observe.logged _ = _ |- _ => rewrite E
  | E : Observe.errors _ = _ |- _ => rewrite E
  end;
  cbn.

(** Read the trace off a finished tick and set its poll apart. *)
Ltac read_tick a :=
  unfold trace_of, completion_of; cbn [fst snd];
  change (GetDeployPipeline (Poller.squidName a) (Poller.versionName a) :: ?x)
    with ([GetDeployPipeline (Poller.squidName a) (Poller.versionName a)] ++ x)%list.

(* ================================================================== *)
(** ** The poller: what every tick does *)
(* ================================================================== *)

Import Js Poller Observe.

(** C7.  A tick on which [getDeployPipeline] finds no pipeline ends the
    loop with a plain return: whatever was polled before ([pre]) and
    whatever the remote would have answered later ([rest]), the run is the
    run so far followed by that one poll and nothing else: no announcement,
    no dump, no stream, no error, no sleep, no further poll. *)
Theorem not_found_ends_the_loop_quietly
    (dim : string -> string) (streamed : list string) (a : Args)
    (pre rest : list (option DeployPipeline)) (t : list event) (st : store) :
  pollDeployPipelines dim streamed a pre = (t, st, Normal StillPolling) ->
  pollDeployPipelines dim streamed a (pre ++ None :: rest)
  = ((t ++ [GetDeployPipeline (squidName a) (versionName a)])%list,
     mkStore (lastStatus st) false,
     Normal Returned).
Proof.
  unfold pollDeployPipelines. intros H.
  rewrite (doUntil_app _ _ _ (None :: rest) _ _ _ H).
  now rewrite doUntil_cons, fn_not_found.
Qed.

Lemma not_found_ends_the_loop_quietly_witness :
  pollDeployPipelines Samples.dim_ansi Samples.two_lines Samples.my_squid
    ([Some (Samples.snapshot CREATED false)] ++ None
       :: [Some (Samples.snapshot OK false)])
  = (([GetDeployPipeline "my-squid" "v1"; ActionStop "✔️";
       ActionStart "◷ Preparing your squid"; Sleep 3000]
      ++ [GetDeployPipeline "my-squid" "v1"])%list,
     mkStore (Some CREATED) false,
     Normal Returned).
Proof.
  apply (not_found_ends_the_loop_quietly Samples.dim_ansi Samples.two_lines
           Samples.my_squid [Some (Samples.snapshot CREATED false)]
           [Some (Samples.snapshot OK false)]
           [GetDeployPipeline "my-squid" "v1"; ActionStop "✔️";
            ActionStart "◷ Preparing your squid"; Sleep 3000]
           (mkStore (Some CREATED) false)).
  reflexivity.
Defined.

(** C10.  On the first tick [lastStatus] is still [undefined], so whatever
    status a found pipeline reports, the stop ['✔️'] is sent: it is the
    first thing after the poll, before any spinner has been started. *)
Theorem first_tick_stops_the_spinner
    (dim : string -> string) (streamed : list string) (a : Args)
    (p : DeployPipeline) (rest : list (option DeployPipeline)) :
  exists later,
    trace_of (pollDeployPipelines dim streamed a (Some p :: rest))
    = GetDeployPipeline (squidName a) (versionName a)
        :: ActionStop "✔️" :: later.
Proof.
  unfold pollDeployPipelines. rewrite doUntil_cons.
  destruct (status_cases (status p)) as [H | [H | H]].
  - destruct (isErrorOccurred p) eqn:E.
    + rewrite (fn_stage_fail _ _ _ _ _ H E). cbn. eauto.
    + rewrite (fn_stage_continue _ _ _ _ _ H E). cbn.
      destruct (doUntil _ _ rest _) as [[t2 st2] c]. cbn. eauto.
  - rewrite (fn_OK _ _ _ _ _ H). cbn. eauto.
  - rewrite (fn_unrecognized _ _ _ _ _ H). cbn. eauto.
Qed.

(** The trace text of a found pipeline is never empty, so the failure
    message of a stage always carries it after [" : "]. *)
Lemma stage_failure_eq (dim : string -> string) (a : Args) (p : DeployPipeline) :
  stage_failure dim a p
  = failure (status p) ++ " : " ++ traceDebug dim a (Some p).
Proof. reflexivity. Qed.

Lemma stage_failure_names_stage (dim : string -> string) (a : Args)
    (p : DeployPipeline) :
  contains (stage_failure dim a p)
    ("An error occurred while " ++ stage_word (status p) ++ " the squid").
Proof.
  rewrite stage_failure_eq. apply contains_append_r. unfold failure.
  exists "❌ ", "". now rewrite !append_assoc3.
Qed.

(** C2.  A snapshot on one of the four stage statuses with the error flag
    set ends the run on its tick with a thrown error: after the poll of that
    tick come the transition stop (if any), the spinner start, the dump
    (if verbose) and the error, and nothing else: whatever the remote would
    have answered later is never asked for.  The message names the stage:
    building for [CREATED] and [IMAGE_BUILDING], publishing for
    [IMAGE_PUSHING], deploying for [DEPLOYING]. *)
Theorem stage_error_is_fatal
    (dim : string -> string) (streamed : list string) (a : Args)
    (pre rest : list (option DeployPipeline)) (p : DeployPipeline)
    (t : list event) (st : store) :
  pollDeployPipelines dim streamed a pre = (t, st, Normal StillPolling) ->
  is_stage (status p) = true ->
  isErrorOccurred p = true ->
  let run := pollDeployPipelines dim streamed a (pre ++ Some p :: rest) in
  let message := stage_failure dim a p in
  completion_of run = Thrown message
  /\ trace_of run
     = (t ++ GetDeployPipeline (squidName a) (versionName a)
          :: stop_events (status p) (lastStatus st)
          ++ [ActionStart (spinner (status p))]
          ++ dump_events dim a p
          ++ [CommandError message])%list
  /\ polls (trace_of run) = S (polls t)
  /\ sleeps (trace_of run) = sleeps t
  /\ (status p = CREATED \/ status p = IMAGE_BUILDING ->
      contains message "An error occurred while building the squid")
  /\ (status p = IMAGE_PUSHING ->
      contains message "An error occurred while publishing the squid")
  /\ (status p = DEPLOYING ->
      contains message "An error occurred while deploying the squid").
Proof.
  intros H Hs He run message.
  assert (E : run
    = ((t ++ GetDeployPipeline (squidName a) (versionName a)
          :: stop_events (status p) (lastStatus st)
          ++ [ActionStart (spinner (status p))]
          ++ dump_events dim a p
          ++ [CommandError message])%list,
       mkStore (Some (status p)) (verbose_or_default a), Thrown message)).
  { unfold run, pollDeployPipelines in *.
    rewrite (doUntil_app _ _ _ (Some p :: rest) _ _ _ H).
    now rewrite doUntil_cons, (fn_stage_fail _ _ _ _ _ Hs He). }
  rewrite E. unfold trace_of, completion_of. cbn [fst snd].
  split; [reflexivity|]. split; [reflexivity|].
  split; [|split].
  - read_tick a. tally. lia.
  - read_tick a. tally. lia.
  - pose proof (stage_failure_names_stage dim a p) as C. fold message in C.
    repeat split.
    + intros [S | S]; rewrite S in C; exact C.
    + intros S; rewrite S in C; exact C.
    + intros S; rewrite S in C; exact C.
Qed.

Lemma stage_error_is_fatal_witness :
  let run :=
    pollDeployPipelines Samples.dim_ansi Samples.two_lines Samples.my_squid
      ([Some (Samples.snapshot CREATED false)]
       ++ Some (Samples.snapshot IMAGE_PUSHING true) :: [None]) in
  completion_of run
  = Thrown (stage_failure Samples.dim_ansi Samples.my_squid
              (Samples.snapshot IMAGE_PUSHING true))
  /\ polls (trace_of run) = 2
  /\ sleeps (trace_of run) = 1.
Proof.
  destruct (stage_error_is_fatal Samples.dim_ansi Samples.two_lines
              Samples.my_squid [Some (Samples.snapshot CREATED false)] [None]
              (Samples.snapshot IMAGE_PUSHING true)
              [GetDeployPipeline "my-squid" "v1"; ActionStop "✔️";
               ActionStart "◷ Preparing your squid"; Sleep 3000]
              (mkStore (Some CREATED) false)
              eq_refl eq_refl eq_refl)
    as (H1 & _ & H3 & H4 & _).
  exact (conj H1 (conj H3 H4)).
Defined.

(* ================================================================== *)
(** ** The poller with [verbose: false] *)
(* ================================================================== *)

Lemma quiet_dump_events (dim : string -> string) (a : Args) (p : DeployPipeline) :
  verbose a = Some false -> dump_events dim a p = [].
Proof.
  intros V. unfold dump_events, verbose_or_default. now rewrite V.
Qed.

(** What a quiet run logs, from any store: nothing until the streamer is
    called, then the line about the deployment URL and the streamed lines. *)
Lemma quiet_run_logs
    (dim : string -> string) (streamed : list string) (a : Args) :
  verbose a = Some false ->
  forall (script : list (option DeployPipeline)) (st : store),
    let t := trace_of (doUntil (fn dim streamed a) pause script st) in
    logged t = (if (0 <? streams t)%nat then running_up a :: streamed else []).
Proof.
  intros V script. induction script as [|r script IH]; intros st t.
  - reflexivity.
  - unfold t; clear t. rewrite doUntil_cons. destruct r as [p|].
    + destruct (status_cases (status p)) as [H | [H | H]].
      * destruct (isErrorOccurred p) eqn:E.
        -- rewrite (fn_stage_fail _ _ _ _ _ H E), (quiet_dump_events _ _ _ V).
           read_tick a. tally. reflexivity.
        -- rewrite (fn_stage_continue _ _ _ _ _ H E).
           specialize (IH (mkStore (Some (status p)) false)). cbv zeta in IH.
           destruct (doUntil _ _ script _) as [[t2 st2] c].
           unfold trace_of in *. cbn [fst snd] in *.
           change (GetDeployPipeline (squidName a) (versionName a) :: ?x)
             with ([GetDeployPipeline (squidName a) (versionName a)] ++ x)%list.
           change (Sleep pause :: t2) with ([Sleep pause] ++ t2)%list.
           tally.
           reflexivity.
      * rewrite (fn_OK _ _ _ _ _ H), (quiet_dump_events _ _ _ V).
        read_tick a. tally. reflexivity.
      * rewrite (fn_unrecognized _ _ _ _ _ H), (quiet_dump_events _ _ _ V).
        read_tick a. tally. reflexivity.
    + rewrite fn_not_found. reflexivity.
Qed.

(** C8.  With [verbose: false] the debug dump never reaches
    [command.log]: [printDebug] does nothing at all, on whatever snapshot
    and from whatever store it is called, and over a whole run, whatever the
    remote answers, the only texts logged are the line about the deployment
    URL and the lines of the streamer, and those only once the streamer has
    been called, on [OK]; a run that ends on a stage failure, on an
    unrecognized status or on a missing pipeline logs nothing. *)
Theorem verbose_false_never_dumps
    (dim : string -> string) (streamed : list string) (a : Args) :
  verbose a = Some false ->
  (forall (p : DeployPipeline) (st : store),
      printDebug dim a p st = ([], st, Normal tt))
  /\ (forall script : list (option DeployPipeline),
        let t := trace_of (pollDeployPipelines dim streamed a script) in
        logged t
        = (if (0 <? streams t)%nat then running_up a :: streamed else [])).
Proof.
  intros V. split.
  - intros p st. unfold printDebug, verbose_or_default. rewrite V. reflexivity.
  - intros script. apply (quiet_run_logs dim streamed a V script initial).
Qed.

Lemma verbose_false_never_dumps_witness :
  logged (trace_of (pollDeployPipelines Samples.dim_ansi Samples.two_lines
                      Samples.my_squid_quiet
                      [Some (Samples.snapshot CREATED false);
                       Some (Samples.snapshot "DEPLOY_FAILED" true);
                       Some (Samples.snapshot OK false)]))
  = []
  /\ logged (trace_of (pollDeployPipelines Samples.dim_ansi Samples.two_lines
                         Samples.my_squid_quiet (map Some Samples.scenario)))
     = running_up Samples.my_squid_quiet :: Samples.two_lines.
Proof.
  destruct (verbose_false_never_dumps Samples.dim_ansi Samples.two_lines
              Samples.my_squid_quiet eq_refl) as [_ H].
  split.
  - exact (H [Some (Samples.snapshot CREATED false);
              Some (Samples.snapshot "DEPLOY_FAILED" true);
              Some (Samples.snapshot OK false)]).
  - exact (H (map Some Samples.scenario)).
Defined.

(* ================================================================== *)
(** ** Spinner starts and transitions *)
(* ================================================================== *)

(** What a tick on a recognized status sends to the spinner. *)
Lemma tick_spinner
    (dim : string -> string) (streamed : list string) (a : Args)
    (p : DeployPipeline) (st : store) :
  recognized (status p) = true ->
  let tick := trace_of (fn dim streamed a (Some p) st) in
  starts tick = [spinner (status p)]
  /\ stops tick
     = (if status_differs (status p) (lastStatus st) then ["✔️"] else []).
Proof.
  intros Hr tick. unfold tick; clear tick.
  unfold recognized in Hr. apply orb_true_iff in Hr.
  destruct Hr as [H | H].
  - destruct (isErrorOccurred p) eqn:E.
    + rewrite (fn_stage_fail _ _ _ _ _ H E). read_tick a. tally. now rewrite ?app_nil_r.
    + rewrite (fn_stage_continue _ _ _ _ _ H E). read_tick a. tally. now rewrite ?app_nil_r.
  - apply String.eqb_eq in H.
    rewrite (fn_OK _ _ _ _ _ H). read_tick a. tally.
    rewrite ?app_nil_r. now rewrite H.
Qed.

(** C3, as stated, fails: in the scenario of the specification the second
    snapshot repeats the status [CREATED] of the first, and its tick starts
    the spinner again. *)
Lemma unchanged_status_restarts_spinner :
  let q := Samples.snapshot CREATED false in
  let first := pollDeployPipelines Samples.dim_ansi Samples.two_lines
                 Samples.my_squid [Some q] in
  let tick := trace_of (fn Samples.dim_ansi Samples.two_lines Samples.my_squid
                          (Some q) (store_of first)) in
  completion_of first = Normal StillPolling
  /\ lastStatus (store_of first) = Some (status q)
  /\ tick = [GetDeployPipeline "my-squid" "v1";
             ActionStart "◷ Preparing your squid"]
  /\ starts tick <> [].
Proof.
  repeat split. discriminate.
Qed.

(** C3, amended.  The [switch] starts the spinner on every tick of a
    recognized status, with the text of that status, whether the status
    changed or not; what is limited to the ticks on which the status changes
    is the stop ['✔️'].  So on a tick whose snapshot repeats the stage status
    of the snapshot polled just before it, no stop is sent and the spinner is
    started once more with the same text. *)
Theorem unchanged_status_tick
    (dim : string -> string) (streamed : list string) (a : Args)
    (pre : list (option DeployPipeline)) (q p : DeployPipeline)
    (t : list event) (st : store) :
  pollDeployPipelines dim streamed a (pre ++ [Some q]) = (t, st, Normal StillPolling) ->
  status p = status q ->
  is_stage (status p) = true ->
  let tick := trace_of (fn dim streamed a (Some p) st) in
  stops tick = []
  /\ starts tick = [spinner (status p)]
  /\ starts tick = starts (trace_of (fn dim streamed a (Some q) st))
  /\ trace_of (pollDeployPipelines dim streamed a (pre ++ [Some q; Some p]))
     = (t ++ tick ++ (if isErrorOccurred p then [] else [Sleep pause]))%list.
Proof.
  intros H Hq Hs tick.
  assert (L : lastStatus st = Some (status p)).
  { unfold pollDeployPipelines in H.
    destruct (doUntil_snoc _ _ _ _ _ _ _ H) as (t1 & st1 & t2 & _ & H2).
    pose proof (fn_lastStatus dim streamed a q st1) as F.
    rewrite H2 in F. cbn in F. congruence. }
  assert (Hr : recognized (status p) = true)
    by (unfold recognized; now rewrite Hs).
  destruct (tick_spinner dim streamed a p st Hr) as [S1 S2].
  fold tick in S1, S2.
  assert (Hr' : recognized (status q) = true) by now rewrite <- Hq.
  destruct (tick_spinner dim streamed a q st Hr') as [S3 _].
  repeat split.
  - rewrite S2, L. cbn. now rewrite String.eqb_refl.
  - exact S1.
  - now rewrite S1, S3, Hq.
  - unfold pollDeployPipelines in *.
    change (pre ++ [Some q; Some p])%list with (pre ++ [Some q] ++ [Some p])%list.
    rewrite app_assoc, (doUntil_app _ _ _ [Some p] _ _ _ H), doUntil_cons.
    unfold tick. destruct (isErrorOccurred p) eqn:E.
    + rewrite (fn_stage_fail _ _ _ _ _ Hs E). cbn. now rewrite app_nil_r.
    + rewrite (fn_stage_continue _ _ _ _ _ Hs E). cbn.
      now rewrite <- app_assoc.
Qed.

Lemma unchanged_status_tick_witness :
  let q := Samples.snapshot CREATED false in
  let tick := trace_of (fn Samples.dim_ansi Samples.two_lines Samples.my_squid
                          (Some q) (mkStore (Some CREATED) false)) in
  stops tick = [] /\ starts tick = ["◷ Preparing your squid"].
Proof.
  destruct (unchanged_status_tick Samples.dim_ansi Samples.two_lines
              Samples.my_squid [] (Samples.snapshot CREATED false)
              (Samples.snapshot CREATED false)
              [GetDeployPipeline "my-squid" "v1"; ActionStop "✔️";
               ActionStart "◷ Preparing your squid"; Sleep 3000]
              (mkStore (Some CREATED) false)
              eq_refl eq_refl eq_refl)
    as (H1 & H2 & _).
  exact (conj H1 H2).
Defined.

(* ================================================================== *)
(** ** The debug dump and the trace text *)
(* ================================================================== *)

Lemma filter_truthy_strings (l : list string) :
  map to_string (filter truthy (map Some l)) = filter nonempty l.
Proof.
  induction l as [|x l IH]; [reflexivity|].
  cbn [map filter]. fold (nonempty x).
  destruct (nonempty x); cbn [map to_string]; now rewrite IH.
Qed.

(** The lines [printDebug] joins are the kept lines of the snapshot. *)
Lemma debugLines_kept (p : DeployPipeline) : debugLines p = kept_lines p.
Proof.
  unfold debugLines, kept_lines.
  rewrite filter_app, map_app, filter_truthy_strings. f_equal.
  destruct (comment p) as [[|c s]|]; reflexivity.
Qed.

Lemma kept_lines_nonempty (p : DeployPipeline) :
  Forall (fun l => l <> "") (kept_lines p).
Proof.
  unfold kept_lines. apply Forall_app. split.
  - apply Forall_forall. intros x Hx. apply filter_In in Hx.
    destruct Hx as [_ Hx]. now destruct x.
  - destruct (comment p) as [[|c s]|]; repeat constructor. discriminate.
Qed.

(** What [traceDebug] holds for a found pipeline. *)
Lemma traceDebug_contents (dim : string -> string) (a : Args) (p : DeployPipeline) :
  let text := traceDebug dim a (Some p) in
  contains text banner
  /\ contains text (dim "Squid:" ++ " " ++ squidName a)
  /\ contains text (dim "Version:" ++ " " ++ versionName a)
  /\ contains text (dim "Deploy:" ++ " " ++ id p)
  /\ contains text (squidName a)
  /\ contains text (versionName a)
  /\ contains text (id p).
Proof.
  cbv zeta. unfold traceDebug, banner. cbn [option_map to_string].
  set (i := "      "). set (sq := dim "Squid:"). set (ve := dim "Version:").
  set (de := dim "Deploy:").
  repeat split.
  - exists (nl ++ i).
    exists (nl ++ i ++ sq ++ " " ++ squidName a ++ nl ++ i ++ ve ++ " "
            ++ versionName a ++ nl ++ i ++ de ++ " " ++ id p ++ nl ++ i).
    now rewrite !append_assoc3.
  - exists (nl ++ i ++ "------" ++ nl ++ i ++ "Please report to t.me/HydraDevs " ++ nl ++ i).
    exists (nl ++ i ++ ve ++ " " ++ versionName a ++ nl ++ i ++ de ++ " "
            ++ id p ++ nl ++ i).
    now rewrite !append_assoc3.
  - exists (nl ++ i ++ "------" ++ nl ++ i ++ "Please report to t.me/HydraDevs " ++ nl ++ i
            ++ sq ++ " " ++ squidName a ++ nl ++ i).
    exists (nl ++ i ++ de ++ " " ++ id p ++ nl ++ i).
    now rewrite !append_assoc3.
  - exists (nl ++ i ++ "------" ++ nl ++ i ++ "Please report to t.me/HydraDevs " ++ nl ++ i
            ++ sq ++ " " ++ squidName a ++ nl ++ i
            ++ ve ++ " " ++ versionName a ++ nl ++ i).
    exists (nl ++ i).
    now rewrite !append_assoc3.
  - exists (nl ++ i ++ "------" ++ nl ++ i ++ "Please report to t.me/HydraDevs " ++ nl ++ i
            ++ sq ++ " ").
    exists (nl ++ i ++ ve ++ " " ++ versionName a ++ nl ++ i ++ de ++ " "
            ++ id p ++ nl ++ i).
    now rewrite !append_assoc3.
  - exists (nl ++ i ++ "------" ++ nl ++ i ++ "Please report to t.me/HydraDevs " ++ nl ++ i
            ++ sq ++ " " ++ squidName a ++ nl ++ i ++ ve ++ " ").
    exists (nl ++ i ++ de ++ " " ++ id p ++ nl ++ i).
    now rewrite !append_assoc3.
  - exists (nl ++ i ++ "------" ++ nl ++ i ++ "Please report to t.me/HydraDevs " ++ nl ++ i
            ++ sq ++ " " ++ squidName a ++ nl ++ i
            ++ ve ++ " " ++ versionName a ++ nl ++ i ++ de ++ " ").
    exists (nl ++ i).
    now rewrite !append_assoc3.
Qed.

(** What a tick that calls [printDebug] logs, when verbose: the dump first,
    once, and after it only what the [OK] case logs. *)
Lemma dumping_tick_logs
    (dim : string -> string) (streamed : list string) (a : Args)
    (p : DeployPipeline) (st : store) :
  verbose_or_default a = true ->
  isErrorOccurred p = true \/ is_stage (status p) = false ->
  logged (trace_of (fn dim streamed a (Some p) st))
  = debugText dim p
      :: (if status p =? OK then running_up a :: streamed else []).
Proof.
  intros V Hd.
  assert (D : dump_events dim a p = [CommandLog (debugText dim p)])
    by (unfold dump_events; now rewrite V).
  assert (N : is_stage (status p) = true -> (status p =? OK) = false).
  { intros H. apply is_stage_cases in H.
    destruct H as [-> | [-> | [-> | ->]]]; reflexivity. }
  destruct (status_cases (status p)) as [H | [H | H]].
  - destruct Hd as [E | E]; [|congruence].
    rewrite (fn_stage_fail _ _ _ _ _ H E), D, (N H).
    read_tick a. tally. reflexivity.
  - rewrite (fn_OK _ _ _ _ _ H), D, H.
    read_tick a. tally. reflexivity.
  - rewrite (fn_unrecognized _ _ _ _ _ H), D.
    apply unrecognized_cases in H. destruct H as (_ & _ & _ & _ & ->).
    read_tick a. tally. reflexivity.
Qed.

(** C4, as stated, fails: on an [OK] snapshot a verbose run emits the
    dump, and the text it hands to [command.log] is the two log lines that
    are not empty, dimmed; it holds neither the banner nor the squid name,
    the version name or the pipeline id, and no error message carries them
    on that tick either. *)
Lemma dump_lacks_banner_and_names :
  let p := Samples.snapshot OK false in
  let tick := trace_of (fn Samples.dim_ansi Samples.two_lines Samples.my_squid
                          (Some p) initial) in
  let dump := Samples.dim_ansi ("step 1" ++ nl ++ "step 2") in
  verbose_or_default Samples.my_squid = true
  /\ logged tick
     = dump :: running_up Samples.my_squid :: Samples.two_lines
  /\ errors tick = []
  /\ ~ contains dump banner
  /\ ~ contains dump (squidName Samples.my_squid)
  /\ ~ contains dump (versionName Samples.my_squid)
  /\ ~ contains dump (id p).
Proof.
  repeat split; apply not_includes; vm_compute; reflexivity.
Qed.

(** C4, amended.  Whenever the debug dump is emitted (a verbose run, on a
    tick whose case calls [printDebug]: a stage failure, [OK] or an
    unrecognized status), it is the first text logged on that tick and is
    logged once, and it is [dim] of the snapshot's log lines followed by
    the comment, joined by newline, with the empty log lines and a missing
    or empty comment left out before joining.  The banner, the squid name,
    the version name and the pipeline id are not put into that text: they
    make up [traceDebug], which only the error message of a stage failure
    carries. *)
Theorem debug_dump_is_logs_and_comment
    (dim : string -> string) (streamed : list string) (a : Args)
    (p : DeployPipeline) (st : store) :
  verbose_or_default a = true ->
  isErrorOccurred p = true \/ is_stage (status p) = false ->
  let tick := trace_of (fn dim streamed a (Some p) st) in
  logged tick
  = debugText dim p
      :: (if status p =? OK then running_up a :: streamed else [])
  /\ debugText dim p = dim (join nl (kept_lines p))
  /\ Forall (fun l => l <> "") (kept_lines p)
  /\ (is_stage (status p) = true ->
      errors tick
      = [failure (status p) ++ " : " ++ traceDebug dim a (Some p)])
  /\ (is_stage (status p) = false ->
      errors tick = [] \/ errors tick = [unexpected]).
Proof.
  intros V Hd tick. split; [|split; [|split; [|split]]].
  - now apply dumping_tick_logs.
  - unfold debugText. now rewrite debugLines_kept.
  - apply kept_lines_nonempty.
  - intros H. destruct Hd as [E | E]; [|congruence].
    unfold tick. rewrite (fn_stage_fail _ _ _ _ _ H E).
    read_tick a. tally. reflexivity.
  - intros H. unfold tick.
    destruct (status_cases (status p)) as [H1 | [H1 | H1]]; [congruence| |].
    + left. rewrite (fn_OK _ _ _ _ _ H1).
      read_tick a. tally. reflexivity.
    + right. rewrite (fn_unrecognized _ _ _ _ _ H1).
      read_tick a. tally. reflexivity.
Qed.

Lemma debug_dump_is_logs_and_comment_witness :
  let p := mkPipeline "1024" IMAGE_BUILDING true ["step 1"; ""; "step 2"]
             (Some "out of memory") in
  logged (trace_of (fn Samples.dim_plain Samples.two_lines Samples.my_squid
                      (Some p) initial))
  = ["step 1" ++ nl ++ "step 2" ++ nl ++ "out of memory"].
Proof.
  exact (proj1 (debug_dump_is_logs_and_comment Samples.dim_plain
                  Samples.two_lines Samples.my_squid
                  (mkPipeline "1024" IMAGE_BUILDING true
                     ["step 1"; ""; "step 2"] (Some "out of memory"))
                  initial eq_refl (or_introl eq_refl))).
Defined.

(* ================================================================== *)
(** ** Fatal errors *)
(* ================================================================== *)

(** C5, as stated, fails for the unrecognized-status branch: its error
    carries the fixed message alone, without the banner, the squid name,
    the version name or the pipeline id. *)
Lemma unexpected_error_lacks_trace :
  let p := Samples.snapshot "DEPLOY_FAILED" false in
  let run := pollDeployPipelines Samples.dim_ansi Samples.two_lines
               Samples.my_squid [Some p] in
  recognized (status p) = false
  /\ completion_of run = Thrown unexpected
  /\ errors (trace_of run) = [unexpected]
  /\ ~ contains unexpected banner
  /\ ~ contains unexpected (squidName Samples.my_squid)
  /\ ~ contains unexpected (versionName Samples.my_squid)
  /\ ~ contains unexpected (id p).
Proof.
  repeat split; apply not_includes; vm_compute; reflexivity.
Qed.

(** C5, amended.  Every fatal error of the poller ends the run on its
    tick: the error is the last event of the run, only the one poll of
    that tick and no sleep come between the run so far and the error, and
    what the remote would have answered later makes no difference.  The
    errors of the four stage failures carry the failure text followed by
    [traceDebug]: the banner, the squid name, the version name and the
    pipeline id.  The error of the unrecognized-status branch carries the
    fixed message and nothing else. *)
Theorem fatal_error_halts_the_loop
    (dim : string -> string) (streamed : list string) (a : Args)
    (pre rest : list (option DeployPipeline)) (p : DeployPipeline)
    (t : list event) (st : store) :
  pollDeployPipelines dim streamed a pre = (t, st, Normal StillPolling) ->
  (is_stage (status p) = true /\ isErrorOccurred p = true)
  \/ recognized (status p) = false ->
  let run := pollDeployPipelines dim streamed a (pre ++ Some p :: rest) in
  exists message before,
    completion_of run = Thrown message
    /\ trace_of run = (t ++ before ++ [CommandError message])%list
    /\ polls before = 1 /\ sleeps before = 0 /\ errors before = []
    /\ run = pollDeployPipelines dim streamed a (pre ++ [Some p])
    /\ (is_stage (status p) = true ->
        message = failure (status p) ++ " : " ++ traceDebug dim a (Some p)
        /\ contains message (failure (status p))
        /\ contains message banner
        /\ contains message (squidName a)
        /\ contains message (versionName a)
        /\ contains message (id p))
    /\ (recognized (status p) = false -> message = unexpected).
Proof.
  intros H Hc run. unfold run, pollDeployPipelines in *.
  rewrite (doUntil_app _ _ _ (Some p :: rest) _ _ _ H).
  rewrite (doUntil_app _ _ _ [Some p] _ _ _ H).
  rewrite !doUntil_cons.
  destruct Hc as [[Hs He] | Hu].
  - rewrite (fn_stage_fail _ _ _ _ _ Hs He).
    exists (stage_failure dim a p).
    exists (GetDeployPipeline (squidName a) (versionName a)
              :: stop_events (status p) (lastStatus st)
              ++ [ActionStart (spinner (status p))]
              ++ dump_events dim a p)%list.
    unfold trace_of, completion_of. cbn [fst snd].
    split; [reflexivity|]. split.
    { cbn [app]. now rewrite <- !app_assoc. }
    change (GetDeployPipeline (squidName a) (versionName a) :: ?x)
      with ([GetDeployPipeline (squidName a) (versionName a)] ++ x)%list.
    split; [tally; lia|].
    split; [tally; lia|].
    split.
    { tally.
      reflexivity. }
    split; [reflexivity|]. split.
    + intros _. rewrite stage_failure_eq.
      destruct (traceDebug_contents dim a p) as (B & _ & _ & _ & S & V & I).
      split; [reflexivity|].
      split; [exists "", (" : " ++ traceDebug dim a (Some p)); reflexivity|].
      repeat split; apply contains_append_l, contains_append_l; assumption.
    + intros Hu. unfold recognized in Hu. rewrite Hs in Hu. discriminate.
  - rewrite (fn_unrecognized _ _ _ _ _ Hu).
    exists unexpected.
    exists (GetDeployPipeline (squidName a) (versionName a)
              :: stop_events (status p) (lastStatus st)
              ++ dump_events dim a p)%list.
    unfold trace_of, completion_of. cbn [fst snd].
    split; [reflexivity|]. split.
    { cbn [app]. now rewrite <- !app_assoc. }
    change (GetDeployPipeline (squidName a) (versionName a) :: ?x)
      with ([GetDeployPipeline (squidName a) (versionName a)] ++ x)%list.
    split; [tally; lia|].
    split; [tally; lia|].
    split.
    { tally.
      reflexivity. }
    split; [reflexivity|]. split.
    + intros Hs. unfold recognized in Hu. rewrite Hs in Hu. discriminate.
    + reflexivity.
Qed.

Lemma fatal_error_halts_the_loop_witness :
  let p := Samples.snapshot DEPLOYING true in
  let run := pollDeployPipelines Samples.dim_ansi Samples.two_lines
               Samples.my_squid
               ([Some (Samples.snapshot CREATED false)]
                ++ Some p :: [Some (Samples.snapshot OK false)]) in
  exists message before,
    completion_of run = Thrown message
    /\ trace_of run
       = ([GetDeployPipeline "my-squid" "v1"; ActionStop "✔️";
           ActionStart "◷ Preparing your squid"; Sleep 3000]
          ++ before ++ [CommandError message])%list
    /\ polls before = 1.
Proof.
  destruct (fatal_error_halts_the_loop Samples.dim_ansi Samples.two_lines
              Samples.my_squid [Some (Samples.snapshot CREATED false)]
              [Some (Samples.snapshot OK false)]
              (Samples.snapshot DEPLOYING true)
              [GetDeployPipeline "my-squid" "v1"; ActionStop "✔️";
               ActionStart "◷ Preparing your squid"; Sleep 3000]
              (mkStore (Some CREATED) false)
              eq_refl (or_introl (conj eq_refl eq_refl)))
    as (message & before & H1 & H2 & H3 & _).
  exists message, before. exact (conj H1 (conj H2 H3)).
Defined.

(** C6, as stated, fails: on an unrecognized status a verbose run logs
    the log lines of the snapshot that are not empty, dimmed line by line,
    and raises the fixed error; neither text holds the banner, the squid
    name, the version name or the pipeline id, and nothing else is emitted
    on the tick, so the debug context is not dumped. *)
Lemma unrecognized_dump_lacks_context :
  let p := Samples.snapshot "DEPLOY_FAILED" false in
  let tick := trace_of (fn Samples.dim_ansi Samples.two_lines Samples.my_squid
                          (Some p) initial) in
  let dump := Samples.sgr_dim ++ "step 1" ++ Samples.sgr_normal ++ nl
              ++ Samples.sgr_dim ++ "step 2" ++ Samples.sgr_normal in
  recognized (status p) = false
  /\ verbose_or_default Samples.my_squid = true
  /\ tick = [GetDeployPipeline "my-squid" "v1"; ActionStop "✔️";
             CommandLog dump; CommandError unexpected]
  /\ ~ contains dump banner
  /\ ~ contains dump (squidName Samples.my_squid)
  /\ ~ contains dump (versionName Samples.my_squid)
  /\ ~ contains dump (id p)
  /\ ~ contains unexpected banner
  /\ ~ contains unexpected (squidName Samples.my_squid)
  /\ ~ contains unexpected (versionName Samples.my_squid)
  /\ ~ contains unexpected (id p).
Proof.
  repeat split; apply not_includes; vm_compute; reflexivity.
Qed.

(** C6, amended.  A snapshot whose status is none of the five recognized
    ones ends the run on its tick: after the poll come the transition stop
    (if any), the dump (once, and only if verbose) and the error with the
    fixed message, which points to Discord and Telegram for support;
    nothing follows, and what the remote would have answered later is never
    asked for.  What is dumped is [dim] of the log lines of the snapshot
    followed by its comment, joined by newline, the empty lines and a
    missing or empty comment left out: the banner, the squid name, the
    version name and the pipeline id are put neither into the dump nor into
    the error, whose message is the fixed text and nothing else. *)
Theorem unrecognized_status_is_fatal
    (dim : string -> string) (streamed : list string) (a : Args)
    (pre rest : list (option DeployPipeline)) (p : DeployPipeline)
    (t : list event) (st : store) :
  pollDeployPipelines dim streamed a pre = (t, st, Normal StillPolling) ->
  recognized (status p) = false ->
  let run := pollDeployPipelines dim streamed a (pre ++ Some p :: rest) in
  completion_of run = Thrown unexpected
  /\ trace_of run
     = (t ++ GetDeployPipeline (squidName a) (versionName a)
          :: stop_events (status p) (lastStatus st)
          ++ dump_events dim a p
          ++ [CommandError unexpected])%list
  /\ logged (dump_events dim a p)
     = (if verbose_or_default a then [debugText dim p] else [])
  /\ polls (trace_of run) = S (polls t)
  /\ sleeps (trace_of run) = sleeps t
  /\ starts (trace_of run) = starts t
  /\ contains unexpected "An unexpected error occurred"
  /\ contains unexpected "Please report to Discord https://discord.gg/KRvRcBdhEE"
  /\ contains unexpected "https://t.me/HydraDevs"
  /\ logged (trace_of run)
     = (logged t
        ++ (if verbose_or_default a then [dim (join nl (kept_lines p))] else []))%list
  /\ kept_lines p
     = (filter nonempty (logs p)
        ++ match comment p with
           | Some c => if nonempty c then [c] else []
           | None => []
           end)%list
  /\ Forall (fun l => l <> "") (kept_lines p)
  /\ errors (trace_of run) = (errors t ++ [unexpected])%list
  /\ unexpected
     = "❌ An unexpected error occurred. Please report to Discord https://discord.gg/KRvRcBdhEE or SquidDevs https://t.me/HydraDevs".
Proof.
  intros H Hs run.
  assert (E : run
    = ((t ++ GetDeployPipeline (squidName a) (versionName a)
          :: stop_events (status p) (lastStatus st)
          ++ dump_events dim a p
          ++ [CommandError unexpected])%list,
       mkStore (Some (status p)) (verbose_or_default a), Thrown unexpected)).
  { unfold run, pollDeployPipelines in *.
    rewrite (doUntil_app _ _ _ (Some p :: rest) _ _ _ H).
    now rewrite doUntil_cons, (fn_unrecognized _ _ _ _ _ Hs). }
  assert (D : debugText dim p = dim (join nl (kept_lines p)))
    by (unfold debugText; now rewrite debugLines_kept).
  rewrite E. unfold trace_of, completion_of. cbn [fst snd].
  split; [reflexivity|]. split; [reflexivity|].
  split; [apply dump_events_counts|].
  read_tick a. repeat split.
  - tally. lia.
  - tally. lia.
  - tally. now rewrite ?app_nil_r.
  - apply includes_spec. vm_compute. reflexivity.
  - apply includes_spec. vm_compute. reflexivity.
  - apply includes_spec. vm_compute. reflexivity.
  - tally. rewrite ?app_nil_r, <- D. reflexivity.
  - apply kept_lines_nonempty.
  - tally. reflexivity.
Qed.

Lemma unrecognized_status_is_fatal_witness :
  let run :=
    pollDeployPipelines Samples.dim_ansi Samples.two_lines Samples.my_squid
      ([Some (Samples.snapshot CREATED false)]
       ++ Some (Samples.snapshot "DEPLOY_FAILED" false)
       :: [Some (Samples.snapshot OK false)]) in
  completion_of run = Thrown unexpected
  /\ polls (trace_of run) = 2
  /\ sleeps (trace_of run) = 1
  /\ logged (trace_of run) = [Samples.dim_ansi ("step 1" ++ nl ++ "step 2")]
  /\ errors (trace_of run) = [unexpected].
Proof.
  destruct (unrecognized_status_is_fatal Samples.dim_ansi Samples.two_lines
              Samples.my_squid [Some (Samples.snapshot CREATED false)]
              [Some (Samples.snapshot OK false)]
              (Samples.snapshot "DEPLOY_FAILED" false)
              [GetDeployPipeline "my-squid" "v1"; ActionStop "✔️";
               ActionStart "◷ Preparing your squid"; Sleep 3000]
              (mkStore (Some CREATED) false)
              eq_refl eq_refl)
    as (H1 & _ & _ & H4 & H5 & _ & _ & _ & _ & H10 & _ & _ & H13 & _).
  exact (conj H1 (conj H4 (conj H5 (conj H10 H13)))).
Defined.

(* ================================================================== *)
(** ** Runs that only move forward *)
(* ================================================================== *)

(** A snapshot of a forward sequence is on a recognized status and has no
    error flag. *)
Lemma forward_head (floor : nat) (p : DeployPipeline) (rest : list DeployPipeline) :
  forward_from floor (p :: rest) = true ->
  isErrorOccurred p = false
  /\ (is_stage (status p) = true \/ status p = OK)
  /\ exists r, forward_from r rest = true.
Proof.
  cbn [forward_from]. intros H. apply andb_true_iff in H. destruct H as [He H].
  apply negb_true_iff in He. split; [exact He|].
  unfold rank, is_stage in *.
  destruct (String.eqb_spec (status p) CREATED);
    [apply andb_true_iff in H; destruct H; split; [now left | eauto]|].
  destruct (String.eqb_spec (status p) IMAGE_BUILDING);
    [apply andb_true_iff in H; destruct H; split; [now left | eauto]|].
  destruct (String.eqb_spec (status p) IMAGE_PUSHING);
    [apply andb_true_iff in H; destruct H; split; [now left | eauto]|].
  destruct (String.eqb_spec (status p) DEPLOYING);
    [apply andb_true_iff in H; destruct H; split; [now left | eauto]|].
  destruct (String.eqb_spec (status p) OK);
    [apply andb_true_iff in H; destruct H; split; [now right | eauto]|].
  discriminate.
Qed.

Lemma stage_is_not_OK (s : string) : is_stage s = true -> (s =? OK) = false.
Proof.
  intros H. apply is_stage_cases in H.
  destruct H as [-> | [-> | [-> | ->]]]; reflexivity.
Qed.

(** The run over a forward sequence, from any store. *)
Lemma forward_from_any_store
    (dim : string -> string) (streamed : list string) (a : Args)
    (snaps : list DeployPipeline) :
  forall (floor : nat) (st : store),
  forward_from floor snaps = true ->
  let run := doUntil (fn dim streamed a) pause (map Some snaps) st in
  let t := trace_of run in
  let seen := map status (upto_OK snaps) in
  stops t = map (fun _ => "✔️") (transitions (lastStatus st) seen)
  /\ starts t = map spinner seen
  /\ errors t = []
  /\ polls t = length seen
  /\ (reaches_OK snaps = true ->
      completion_of run = Normal Returned
      /\ streams t = 1
      /\ (exists earlier, seen = (earlier ++ [OK])%list /\ ~ In OK earlier)
      /\ exists before,
           t = (before
                ++ StreamSquidLogs (orgCode a) (squidName a) (versionName a)
                :: map CommandLog streamed)%list
           /\ streams before = 0
           /\ polls before = length seen)
  /\ (reaches_OK snaps = false ->
      completion_of run = Normal StillPolling /\ streams t = 0).
Proof.
  induction snaps as [|p rest IH]; intros floor st F.
  - cbn. repeat split; discriminate.
  - destruct (forward_head _ _ _ F) as (He & Hs & r & Fr).
    cbn [map]. rewrite doUntil_cons. destruct Hs as [Hs | Hs].
    + (* a stage status: the loop sleeps and goes on *)
      pose proof (stage_is_not_OK _ Hs) as N.
      rewrite (fn_stage_continue _ _ _ _ _ Hs He).
      specialize (IH r (mkStore (Some (status p)) false) Fr).
      cbv zeta in IH. cbn [lastStatus] in IH.
      destruct (doUntil _ _ (map Some rest) _) as [[t2 st2] c].
      destruct IH as (I1 & I2 & I3 & I4 & I5 & I6).
      unfold trace_of, completion_of in *. cbn [fst snd] in *.
      cbn [upto_OK reaches_OK existsb]. rewrite N. cbn [orb map transitions length].
      change (GetDeployPipeline (squidName a) (versionName a) :: ?x)
        with ([GetDeployPipeline (squidName a) (versionName a)] ++ x)%list.
      change (Sleep pause :: t2) with ([Sleep pause] ++ t2)%list.
      split; [|split; [|split; [|split; [|split]]]].
      * tally. now destruct (status_differs (status p) (lastStatus st)).
      * tally. reflexivity.
      * tally. reflexivity.
      * tally. lia.
      * intros Hok. destruct (I5 Hok) as (C & S1 & (earlier & E1 & E2) & before & B1 & B2 & B3).
        split; [exact C|]. split; [tally; lia|]. split.
        { exists (status p :: earlier). split; [cbn; now rewrite E1|].
          intros [X | X]; [|now apply E2].
          rewrite X in N. discriminate. }
        exists (([GetDeployPipeline (squidName a) (versionName a)]
                 ++ stop_events (status p) (lastStatus st)
                 ++ [ActionStart (spinner (status p))])
                ++ [Sleep pause] ++ before)%list.
        split; [rewrite B1; now rewrite <- !app_assoc|].
        split; [tally; lia|].
        tally. lia.
      * intros Hok. destruct (I6 Hok) as (C & S1).
        split; [exact C|]. tally. lia.
    + (* OK: the streamer is called and the loop returns *)
      rewrite (fn_OK _ _ _ _ _ Hs).
      unfold trace_of, completion_of. cbn [fst snd].
      cbn [upto_OK reaches_OK existsb]. rewrite Hs. cbn [String.eqb].
      change (OK =? OK) with true. cbn [orb map transitions length].
      change (GetDeployPipeline (squidName a) (versionName a) :: ?x)
        with ([GetDeployPipeline (squidName a) (versionName a)] ++ x)%list.
      split; [|split; [|split; [|split; [|split]]]].
      * tally. rewrite Hs. now destruct (status_differs OK (lastStatus st)).
      * tally. now rewrite Hs.
      * tally. reflexivity.
      * tally. lia.
      * intros _. split; [reflexivity|]. split; [tally; lia|].
        split; [exists []; split; [now rewrite Hs | intros []]|].
        exists ([GetDeployPipeline (squidName a) (versionName a)]
                ++ stop_events OK (lastStatus st)
                ++ dump_events dim a p
                ++ [CommandLog (running_up a);
                    ActionStart "Streaming logs from the squid"])%list.
        split; [now rewrite <- !app_assoc|].
        split; tally; lia.
      * discriminate.
Qed.

(** C1, as stated, fails: the scenario of the specification,
    [CREATED, CREATED, IMAGE_BUILDING, OK], only moves forward and makes
    three transitions, but the spinner is started four times: the status
    [CREATED] is announced on the first tick and again on the second. *)
Lemma scenario_announces_a_status_twice :
  let t := trace_of (pollDeployPipelines Samples.dim_ansi Samples.two_lines
                       Samples.my_squid (map Some Samples.scenario)) in
  forward Samples.scenario = true
  /\ transitions None (map status Samples.scenario)
     = [CREATED; IMAGE_BUILDING; OK]
  /\ starts t
     = ["◷ Preparing your squid"; "◷ Preparing your squid";
        "◷ Building your squid"; "Streaming logs from the squid"]
  /\ starts t <> map spinner (transitions None (map status Samples.scenario)).
Proof.
  repeat split. discriminate.
Qed.

(** C1, amended.  Over a sequence of snapshots that only moves forward
    through the five statuses with the error flag never set, the poller
    polls up to the first [OK] and no further; it signals each change of
    status once, with the stop ['✔️'], and starts the spinner on every
    tick, with the text of the status of that tick (so a status that is
    reported on several ticks is announced on each of them); it raises no
    error; and it returns exactly when some snapshot reports [OK], after
    calling the streamer once, on the tick of that snapshot, the call and
    the lines it forwards being the last events of the run.  While no
    snapshot reports [OK] the loop is still polling and the streamer has
    not been called. *)
Theorem forward_run
    (dim : string -> string) (streamed : list string) (a : Args)
    (snaps : list DeployPipeline) :
  forward snaps = true ->
  let run := pollDeployPipelines dim streamed a (map Some snaps) in
  let t := trace_of run in
  let seen := map status (upto_OK snaps) in
  stops t = map (fun _ => "✔️") (transitions None seen)
  /\ starts t = map spinner seen
  /\ errors t = []
  /\ polls t = length seen
  /\ (reaches_OK snaps = true ->
      completion_of run = Normal Returned
      /\ streams t = 1
      /\ (exists earlier, seen = (earlier ++ [OK])%list /\ ~ In OK earlier)
      /\ exists before,
           t = (before
                ++ StreamSquidLogs (orgCode a) (squidName a) (versionName a)
                :: map CommandLog streamed)%list
           /\ streams before = 0
           /\ polls before = length seen)
  /\ (reaches_OK snaps = false ->
      completion_of run = Normal StillPolling /\ streams t = 0).
Proof.
  intros F. exact (forward_from_any_store dim streamed a snaps 0 initial F).
Qed.

Lemma forward_run_witness :
  let run := pollDeployPipelines Samples.dim_ansi Samples.two_lines
               Samples.my_squid (map Some Samples.scenario) in
  stops (trace_of run) = ["✔️"; "✔️"; "✔️"]
  /\ starts (trace_of run)
     = ["◷ Preparing your squid"; "◷ Preparing your squid";
        "◷ Building your squid"; "Streaming logs from the squid"]
  /\ errors (trace_of run) = []
  /\ polls (trace_of run) = 4
  /\ completion_of run = Normal Returned
  /\ streams (trace_of run) = 1.
Proof.
  destruct (forward_run Samples.dim_ansi Samples.two_lines Samples.my_squid
              Samples.scenario eq_refl)
    as (H1 & H2 & H3 & H4 & H5 & _).
  destruct (H5 eq_refl) as (H6 & H7 & _).
  exact (conj H1 (conj H2 (conj H3 (conj H4 (conj H6 H7))))).
Defined.

(* ================================================================== *)
(** ** Matching by derivatives is matching *)
(* ================================================================== *)

Section RegexFacts.
Import Regex.

Lemma nullable_spec (r : regex) : nullable r = true <-> lang r [].
Proof.
  split.
  - induction r; cbn [nullable]; intros H; try discriminate.
    + constructor.
    + apply andb_true_iff in H. destruct H as [H1 H2].
      change (@nil N) with (@nil N ++ [])%list. constructor; auto.
    + apply orb_true_iff in H. destruct H; [apply lang_alt_l | apply lang_alt_r]; auto.
    + constructor.
  - intros H. remember [] as s eqn:E.
    induction H; try discriminate; cbn [nullable]; try reflexivity.
    + apply app_eq_nil in E. destruct E. now rewrite IHlang1, IHlang2.
    + now rewrite IHlang.
    + rewrite IHlang by assumption. apply orb_true_r.
Qed.

Lemma deriv_sound (c : N) (r : regex) :
  forall s, lang (deriv c r) s -> lang r (c :: s).
Proof.
  induction r; cbn [deriv]; intros s H.
  - inversion H.
  - inversion H.
  - inversion H; subst. constructor.
  - destruct (isLineTerminator c) eqn:E; inversion H; subst. now constructor.
  - destruct (N.eqb_spec c c0); inversion H; subst. constructor.
  - assert (L : forall w, lang (Seq (deriv c r1) r2) w -> lang (Seq r1 r2) (c :: w)).
    { intros w Hw. inversion Hw; subst.
      change (c :: s1 ++ s2)%list with ((c :: s1) ++ s2)%list.
      constructor; auto. }
    destruct (nullable r1) eqn:E; [|now apply L].
    inversion H; subst; [now apply L|].
    change (c :: s) with ([] ++ c :: s)%list.
    constructor; [now apply nullable_spec | auto].
  - inversion H; subst; [apply lang_alt_l | apply lang_alt_r]; auto.
  - inversion H; subst.
    change (c :: s1 ++ s2)%list with ((c :: s1) ++ s2)%list.
    constructor; auto.
Qed.

Lemma deriv_complete (c : N) (r : regex) (w : jsstring) :
  lang r w -> forall s, w = c :: s -> lang (deriv c r) s.
Proof.
  induction 1; intros z E; cbn [deriv]; try discriminate.
  - injection E as -> <-. constructor.
  - injection E as -> <-. rewrite H. constructor.
  - injection E as -> <-. rewrite N.eqb_refl. constructor.
  - assert (L : forall s1', s1 = c :: s1' -> z = (s1' ++ s2)%list ->
                lang (Seq (deriv c r1) r2) z).
    { intros s1' E1 ->. constructor; auto. }
    destruct s1 as [|d s1'].
    + cbn [app] in E. apply nullable_spec in H. rewrite H.
      apply lang_alt_r. auto.
    + cbn [app] in E. injection E as -> <-.
      destruct (nullable r1); [apply lang_alt_l|]; now apply (L s1').
  - apply lang_alt_l. auto.
  - apply lang_alt_r. auto.
  - destruct s1 as [|d s1'].
    + cbn [app] in E. now apply IHlang2.
    + cbn [app] in E. injection E as -> <-. constructor; auto.
Qed.

Lemma matches_spec (s : jsstring) :
  forall r, matches r s = true <-> lang r s.
Proof.
  induction s as [|c s IH]; intros r; cbn [matches].
  - apply nullable_spec.
  - rewrite IH. split.
    + apply deriv_sound.
    + intros H. now apply (deriv_complete c r (c :: s)).
Qed.

Lemma lang_star_any (s : jsstring) : lang (Star Any) s.
Proof.
  induction s as [|c s IH]; [constructor|].
  change (c :: s) with ([c] ++ s)%list. constructor; [constructor | exact IH].
Qed.

Lemma lang_star_dot (r : regex) (s : jsstring) :
  lang r s -> r = Star Dot -> Forall (fun c => isLineTerminator c = false) s.
Proof.
  induction 1; intros E; try discriminate.
  - constructor.
  - injection E as ->. apply Forall_app. split; [|auto].
    inversion H; subst. now repeat constructor.
Qed.

(** [.+] matches the strings that are not empty and hold no line
    terminator. *)
Lemma lang_plus_dot (s : jsstring) :
  lang (Plus Dot) s <->
  s <> [] /\ Forall (fun c => isLineTerminator c = false) s.
Proof.
  unfold Plus. split.
  - intros H. inversion H; subst. inversion H2; subst. split; [discriminate|].
    constructor; [assumption|]. now apply (lang_star_dot (Star Dot)).
  - intros [Hn Hf]. destruct s as [|c s]; [congruence|].
    inversion Hf; subst.
    change (c :: s) with ([c] ++ s)%list. constructor; [now constructor|].
    clear Hn Hf H1. induction s as [|d s IH]; [constructor|].
    inversion H2; subst.
    change (d :: s) with ([d] ++ s)%list. constructor; [now constructor | auto].
Qed.

(** [/.+@.+/] is found in [s] exactly when some ['@'] of [s] stands
    between two code units that are no line terminators. *)
Lemma found_name_at_version (s : jsstring) :
  found Parser.name_at_version s = true <->
  exists l1 x y l2,
    s = (l1 ++ x :: Parser.at_sign :: y :: l2)%list
    /\ isLineTerminator x = false /\ isLineTerminator y = false.
Proof.
  unfold found, Parser.name_at_version. rewrite matches_spec. split.
  - intros H. inversion H as [| | | |? ? p m Hp Hm| | | |]; subst.
    inversion Hm as [| | | |? ? m1 q Hm1 Hq| | | |]; subst.
    inversion Hm1 as [| | | |? ? n m2 Hn Hm2| | | |]; subst.
    inversion Hm2 as [| | | |? ? o v Ho Hv| | | |]; subst.
    inversion Ho; subst.
    apply lang_plus_dot in Hn, Hv. destruct Hn as [Hn1 Hn2], Hv as [Hv1 Hv2].
    destruct (exists_last Hn1) as (n' & x & ->).
    destruct v as [|y v']; [congruence|].
    apply Forall_app in Hn2. destruct Hn2 as [_ Hx].
    inversion Hx; subst. inversion Hv2; subst.
    exists (p ++ n')%list, x, y, (v' ++ q)%list.
    split; [|split; assumption].
    cbn [app]. rewrite <- !app_assoc. reflexivity.
  - intros (l1 & x & y & l2 & -> & Hx & Hy).
    constructor; [apply lang_star_any|].
    change (x :: Parser.at_sign :: y :: l2)
      with (([x] ++ [Parser.at_sign] ++ [y]) ++ l2)%list.
    constructor; [|apply lang_star_any].
    constructor; [apply lang_plus_dot; split; [discriminate | now repeat constructor]|].
    constructor; [constructor|].
    apply lang_plus_dot; split; [discriminate | now repeat constructor].
Qed.

End RegexFacts.

(* ================================================================== *)
(** ** [parseNameAndVersion] *)
(* ================================================================== *)

Section ParserFacts.
Import Regex Parser.

Lemma count_at_app (l1 l2 : jsstring) :
  count_at (l1 ++ l2)%list = count_at l1 + count_at l2.
Proof. unfold count_at. now rewrite filter_app, length_app. Qed.

Lemma count_at_cons (c : N) (l : jsstring) :
  count_at (c :: l) = (if (c =? at_sign)%N then 1 else 0) + count_at l.
Proof.
  unfold count_at. cbn [filter]. rewrite (N.eqb_sym at_sign c).
  now destruct (c =? at_sign)%N.
Qed.

Lemma count_at_zero (l : jsstring) : count_at l = 0 <-> ~ In at_sign l.
Proof.
  induction l as [|c l IH]; [cbn; tauto|].
  rewrite count_at_cons. cbn [In]. destruct (N.eqb_spec c at_sign) as [E | E].
  - split; [discriminate | intros H; exfalso; apply H; now left].
  - rewrite IH. cbn. tauto.
Qed.

Lemma split_at_without (l : jsstring) : ~ In at_sign l -> split_at l = [l].
Proof.
  induction l as [|c l IH]; [reflexivity|]. cbn [In split_at]. intros H.
  destruct (N.eqb_spec c at_sign) as [E | E]; [exfalso; apply H; now left|].
  rewrite IH by tauto. reflexivity.
Qed.

Lemma split_at_first (name rest : jsstring) :
  ~ In at_sign name ->
  split_at (name ++ at_sign :: rest)%list = name :: split_at rest.
Proof.
  induction name as [|c l IH]; [reflexivity|]. cbn [In split_at app]. intros H.
  destruct (N.eqb_spec c at_sign) as [E | E]; [exfalso; apply H; now left|].
  rewrite IH by tauto. reflexivity.
Qed.

(** With one ['@'] in all, the parts around an ['@'] hold none. *)
Lemma one_at_parts (name ver : jsstring) :
  count_at (name ++ at_sign :: ver)%list = 1 ->
  ~ In at_sign name /\ ~ In at_sign ver.
Proof.
  rewrite count_at_app, count_at_cons. cbn. rewrite <- !count_at_zero. lia.
Qed.

(** The guard of [parseNameAndVersion] lets through the well-formed
    tokens and no other. *)
Lemma guard_spec (s : jsstring) :
  no_name_at_version s || negb (count_at s =? 1)%nat = false <-> well_formed s.
Proof.
  unfold well_formed, no_name_at_version.
  rewrite <- found_name_at_version, orb_false_iff, !negb_false_iff, Nat.eqb_eq.
  tauto.
Qed.

Lemma parse_throws (s : jsstring) (st : store) :
  no_name_at_version s || negb (count_at s =? 1)%nat = true ->
  parseNameAndVersion s st
  = ([CommandError required_format], st, Thrown required_format).
Proof.
  intros G. unfold parseNameAndVersion. rewrite G. reflexivity.
Qed.

Lemma parse_returns (s : jsstring) (st : store) :
  no_name_at_version s || negb (count_at s =? 1)%nat = false ->
  parseNameAndVersion s st
  = ([], st, Normal (mkNameAndVersion (nth_error (split_at s) 0)
                                      (nth_error (split_at s) 1))).
Proof.
  intros G. unfold parseNameAndVersion. rewrite G. reflexivity.
Qed.

End ParserFacts.

(** C9, as stated, fails: a token with exactly one ['@'] and nothing
    after it, or nothing before it, or a line terminator next to it, is
    rejected all the same. *)
Lemma one_at_sign_is_rejected :
  let rejected s :=
    Parser.parseNameAndVersion s initial
    = ([CommandError Parser.required_format], initial,
       Thrown Parser.required_format) in
  Parser.count_at (Parser.units "foo@") = 1
  /\ rejected (Parser.units "foo@")
  /\ Parser.count_at (Parser.units "@v1") = 1
  /\ rejected (Parser.units "@v1")
  /\ Parser.count_at (Parser.units "foo" ++ [10; 64; 118; 49]%N)%list = 1
  /\ rejected (Parser.units "foo" ++ [10; 64; 118; 49]%N)%list.
Proof.
  repeat split.
Qed.

(** C9, amended.  [parseNameAndVersion] raises its validation error, and
    does nothing else (so nothing is polled), exactly when the token is not
    well formed: when it does not hold exactly one ['@'], or when that
    ['@'] is not directly preceded and directly followed by a character
    other than a line terminator (an empty name or an empty version is
    refused too).  For every well-formed token it returns, without any
    event, the part before the ['@'] as [squidName] and the part after it
    as [versionName]. *)
Theorem parseNameAndVersion_spec (s : Regex.jsstring) (st : store) :
  ((exists message, completion_of (Parser.parseNameAndVersion s st) = Thrown message)
   <-> ~ Parser.well_formed s)
  /\ (~ Parser.well_formed s ->
      Parser.parseNameAndVersion s st
      = ([CommandError Parser.required_format], st,
         Thrown Parser.required_format))
  /\ (forall name ver,
        Parser.well_formed s ->
        s = (name ++ Parser.at_sign :: ver)%list ->
        Parser.parseNameAndVersion s st
        = ([], st,
           Normal (Parser.mkNameAndVersion (Some name) (Some ver)))).
Proof.
  pose proof (guard_spec s) as G.
  destruct (Parser.no_name_at_version s
            || negb (Parser.count_at s =? 1)%nat) eqn:E.
  - assert (W : ~ Parser.well_formed s) by (intros W; apply G in W; discriminate).
    rewrite (parse_throws s st E). split; [|split].
    + split; [intros _; exact W | intros _; now exists Parser.required_format].
    + reflexivity.
    + intros name ver W'. contradiction.
  - assert (W : Parser.well_formed s) by now apply G.
    rewrite (parse_returns s st E). split; [|split].
    + split; [intros [m Hm]; discriminate | intros W'; contradiction].
    + intros W'. contradiction.
    + intros name ver _ ->. destruct W as [C _].
      destruct (one_at_parts _ _ C) as [Hn Hv].
      now rewrite (split_at_first _ _ Hn), (split_at_without _ Hv).
Qed.

Lemma parseNameAndVersion_spec_witness :
  Parser.parseNameAndVersion (Parser.units "my-squid@v1") initial
  = ([], initial,
     Normal (Parser.mkNameAndVersion (Some (Parser.units "my-squid"))
                                     (Some (Parser.units "v1"))))
  /\ Parser.parseNameAndVersion (Parser.units "foo@bar@baz") initial
     = ([CommandError Parser.required_format], initial,
        Thrown Parser.required_format).
Proof.
  split.
  - refine (proj2 (proj2 (parseNameAndVersion_spec
                            (Parser.units "my-squid@v1") initial))
              (Parser.units "my-squid") (Parser.units "v1") _ eq_refl).
    split; [reflexivity|].
    exists (Parser.units "my-squi"), 100%N, 118%N, (Parser.units "1").
    repeat split.
  - refine (proj1 (proj2 (parseNameAndVersion_spec
                            (Parser.units "foo@bar@baz") initial)) _).
    intros [C _]. discriminate C.
Defined.

(* ================================================================== *)
(** ** [getEnv], [parseEnvFile] and [parseEnvs] *)
(* ================================================================== *)

Section EnvFacts.

Variable parse : string -> Env.obj.
Variable existsSync : string -> bool.
Variable readFileSync : string -> completion string.

(** A key of a spread is looked up in the right operand first. *)
Lemma find_spread (a b : Env.obj) (k : string) :
  SMap.find k (Env.spread a b)
  = match SMap.find k b with
    | Some v => Some v
    | None => SMap.find k a
    end.
Proof.
  unfold Env.spread.
  destruct (SMap.find k b) as [v|] eqn:B.
  - apply SMapP.F.find_mapsto_iff, SMapP.update_mapsto_iff. left.
    now apply SMapP.F.find_mapsto_iff.
  - apply SMapP.F.not_find_in_iff in B.
    destruct (SMap.find k a) as [v|] eqn:A.
    + apply SMapP.F.find_mapsto_iff, SMapP.update_mapsto_iff. right.
      split; [now apply SMapP.F.find_mapsto_iff | exact B].
    + apply SMapP.F.not_find_in_iff. intros I.
      apply SMapP.update_in_iff in I. destruct I as [I | I]; [|now apply B].
      apply SMapP.F.not_find_in_iff in A. now apply A.
Qed.

Lemma getEnv_cases (e : string) :
  (Env.keys_length (parse e) = 0
   /\ Env.getEnv parse e = Thrown (Env.parsing_error e))
  \/ (Env.keys_length (parse e) <> 0
      /\ Env.getEnv parse e = Normal (parse e)).
Proof.
  unfold Env.getEnv, Env.parsing_error.
  destruct (Nat.eqb_spec (Env.keys_length (parse e)) 0); [left | right]; now split.
Qed.

(** What the loop over the flags leaves for a key. *)
Lemma forEach_flag_find (flags : list string) (k : string) :
  forall envs r,
    Env.forEach_flag parse flags envs = Normal r ->
    SMap.find k r
    = match Env.last_defined parse k flags with
      | Some v => Some v
      | None => SMap.find k envs
      end.
Proof.
  induction flags as [|e rest IH]; intros envs r H; cbn in H |- *.
  - now injection H as ->.
  - destruct (getEnv_cases e) as [[_ E] | [_ E]]; rewrite E in H; [discriminate|].
    cbn in H. rewrite (IH _ _ H), find_spread.
    now destruct (Env.last_defined parse k rest).
Qed.

(** The loop over the flags throws at the first flag without a key. *)
Lemma forEach_flag_throws (flags : list string) :
  forall envs message,
    Env.forEach_flag parse flags envs = Thrown message ->
    exists pre e rest,
      flags = (pre ++ e :: rest)%list
      /\ Forall (fun x => Env.keys_length (parse x) <> 0) pre
      /\ Env.keys_length (parse e) = 0
      /\ message = Env.parsing_error e.
Proof.
  induction flags as [|e rest IH]; intros envs message H; cbn in H; [discriminate|].
  destruct (getEnv_cases e) as [[Z E] | [Z E]]; rewrite E in H; cbn in H.
  - injection H as <-. exists [], e, rest. repeat split; [constructor | exact Z].
  - destruct (IH _ _ H) as (pre & e' & rest' & -> & F & Z' & M).
    exists (e :: pre), e', rest'. repeat split; try assumption. now constructor.
Qed.

Lemma forEach_flag_returns (flags : list string) :
  forall envs,
    Forall (fun x => Env.keys_length (parse x) <> 0) flags ->
    exists r, Env.forEach_flag parse flags envs = Normal r.
Proof.
  induction flags as [|e rest IH]; intros envs F; cbn; [eauto|].
  inversion F; subst.
  destruct (getEnv_cases e) as [[Z E] | [Z E]]; [contradiction|].
  rewrite E. cbn. now apply IH.
Qed.

Lemma forEach_flag_first_empty (pre rest : list string) (e : string) :
  forall envs,
    Forall (fun x => Env.keys_length (parse x) <> 0) pre ->
    Env.keys_length (parse e) = 0 ->
    Env.forEach_flag parse (pre ++ e :: rest) envs = Thrown (Env.parsing_error e).
Proof.
  induction pre as [|x pre IH]; intros envs F Z; cbn [app Env.forEach_flag].
  - destruct (getEnv_cases e) as [[_ E] | [N _]]; [now rewrite E | contradiction].
  - inversion F; subst.
    destruct (getEnv_cases x) as [[Z' _] | [_ E]]; [contradiction|].
    rewrite E. cbn. now apply IH.
Qed.

End EnvFacts.

(** X1.  [parseEnvs]: when it returns, a key of the result holds what the
    env file gives it, if the file defines the key; otherwise what the last
    flag that defines it gives it; otherwise nothing.  So the file
    overrides every flag, and a later flag overrides an earlier one. *)
Theorem parseEnvs_precedence
    (parse : string -> Env.obj) (existsSync : string -> bool)
    (readFileSync : string -> completion string)
    (envFlags : option (list string)) (envFilePath : option string)
    (r : Env.obj) (k : string) :
  Env.parseEnvs parse existsSync readFileSync envFlags envFilePath = Normal r ->
  exists fileEnvs,
    match envFilePath with
    | Some path => Env.parseEnvFile parse existsSync readFileSync path
    | None => Normal (SMap.empty string)
    end = Normal fileEnvs
    /\ SMap.find k r
       = match SMap.find k fileEnvs with
         | Some v => Some v
         | None =>
             Env.last_defined parse k
               match envFlags with Some flags => flags | None => [] end
         end.
Proof.
  unfold Env.parseEnvs. intros H.
  destruct (match envFlags with
            | Some flags => Env.forEach_flag parse flags (SMap.empty string)
            | None => Normal (SMap.empty string)
            end) as [envs|] eqn:E; [|discriminate].
  cbn [and_then] in H.
  destruct (match envFilePath with
            | Some path => Env.parseEnvFile parse existsSync readFileSync path
            | None => Normal (SMap.empty string)
            end) as [fileEnvs|]; [|discriminate].
  cbn [and_then] in H. injection H as <-.
  exists fileEnvs. split; [reflexivity|].
  rewrite find_spread. destruct (SMap.find k fileEnvs); [reflexivity|].
  destruct envFlags as [flags|].
  - rewrite (forEach_flag_find parse flags k _ _ E).
    now destruct (Env.last_defined parse k flags).
  - now injection E as <-.
Qed.

Lemma parseEnvs_precedence_witness :
  let r := Env.spread
             (Env.spread (Env.spread (SMap.empty string)
                            (MoreSamples.parse "PORT=80"))
                (MoreSamples.parse "HOST=db"))
             (MoreSamples.parse "PORT=8080") in
  exists fileEnvs,
    Env.parseEnvFile MoreSamples.parse MoreSamples.existsSync
      MoreSamples.readFileSync ".env" = Normal fileEnvs
    /\ SMap.find "PORT" r
       = match SMap.find "PORT" fileEnvs with
         | Some v => Some v
         | None => Env.last_defined MoreSamples.parse "PORT" ["PORT=80"; "HOST=db"]
         end.
Proof.
  exact (parseEnvs_precedence MoreSamples.parse MoreSamples.existsSync
           MoreSamples.readFileSync (Some ["PORT=80"; "HOST=db"]) (Some ".env")
           _ "PORT" eq_refl).
Defined.

(** X2.  [parseEnvs] fails on the first flag that parses to no key at all,
    with the message of [getEnv] for that flag: the flags after it and the
    env file, present or not, readable or not, make no difference. *)
Theorem parseEnvs_first_empty_flag
    (parse : string -> Env.obj) (existsSync : string -> bool)
    (readFileSync : string -> completion string)
    (pre rest : list string) (e : string) (envFilePath : option string) :
  Forall (fun x => Env.keys_length (parse x) <> 0) pre ->
  Env.keys_length (parse e) = 0 ->
  Env.parseEnvs parse existsSync readFileSync (Some (pre ++ e :: rest)%list)
    envFilePath
  = Thrown ("❌ An error occurred during parsing variable "
            ++ Env.quote ++ e ++ Env.quote).
Proof.
  intros F Z. unfold Env.parseEnvs.
  now rewrite (forEach_flag_first_empty parse pre rest e _ F Z).
Qed.

Lemma parseEnvs_first_empty_flag_witness :
  Env.parseEnvs MoreSamples.parse MoreSamples.existsSync MoreSamples.readFileSync
    (Some (["PORT=80"] ++ "PORT" :: ["=oops"; "HOST=db"])%list) (Some "missing.env")
  = Thrown ("❌ An error occurred during parsing variable "
            ++ Env.quote ++ "PORT" ++ Env.quote).
Proof.
  apply (parseEnvs_first_empty_flag MoreSamples.parse MoreSamples.existsSync
           MoreSamples.readFileSync ["PORT=80"] ["=oops"; "HOST=db"] "PORT"
           (Some "missing.env")).
  - repeat constructor. vm_compute. discriminate.
  - reflexivity.
Defined.

(** X3.  [parseEnvs] throws for two reasons only: a flag that parses to no
    key (the first such flag, all flags before it having one), or, every
    flag having a key, an env file that exists and whose read throws; the
    error is then the one of the read. *)
Theorem parseEnvs_failures
    (parse : string -> Env.obj) (existsSync : string -> bool)
    (readFileSync : string -> completion string)
    (envFlags : option (list string)) (envFilePath : option string)
    (message : string) :
  Env.parseEnvs parse existsSync readFileSync envFlags envFilePath = Thrown message ->
  (exists pre e rest,
      envFlags = Some (pre ++ e :: rest)%list
      /\ Forall (fun x => Env.keys_length (parse x) <> 0) pre
      /\ Env.keys_length (parse e) = 0
      /\ message = Env.parsing_error e)
  \/ (exists path,
        envFilePath = Some path
        /\ existsSync path = true
        /\ readFileSync path = Thrown message
        /\ Forall (fun x => Env.keys_length (parse x) <> 0)
             match envFlags with Some flags => flags | None => [] end).
Proof.
  unfold Env.parseEnvs. intros H.
  destruct envFlags as [flags|].
  - destruct (Env.forEach_flag parse flags (SMap.empty string)) as [envs|m] eqn:E.
    + right. cbn [and_then] in H.
      assert (F : Forall (fun x => Env.keys_length (parse x) <> 0) flags).
      { clear H. revert E. generalize (SMap.empty string).
        induction flags as [|x flags IH]; intros envs0 E; [constructor|].
        cbn in E. destruct (getEnv_cases parse x) as [[_ G] | [N G]];
          rewrite G in E; [discriminate|].
        constructor; [exact N | now apply (IH _ E)]. }
      destruct envFilePath as [path|]; [|discriminate].
      unfold Env.parseEnvFile in H.
      destruct (existsSync path) eqn:X; cbn in H; [|discriminate].
      destruct (readFileSync path) as [text|m] eqn:Rd; cbn in H; [discriminate|].
      injection H as ->. now exists path.
    + left. cbn [and_then] in H. injection H as ->.
      destruct (forEach_flag_throws parse flags _ _ E) as (pre & e & rest & -> & F & Z & M).
      now exists pre, e, rest.
  - right. cbn [and_then] in H.
    destruct envFilePath as [path|]; [|discriminate].
    unfold Env.parseEnvFile in H.
    destruct (existsSync path) eqn:X; cbn in H; [|discriminate].
    destruct (readFileSync path) as [text|m] eqn:Rd; cbn in H; [discriminate|].
    injection H as ->. exists path. repeat split; try assumption. constructor.
Qed.

Lemma parseEnvs_failures_witness :
  (exists pre e rest,
      Some ["PORT=80"; "PORT"] = Some (pre ++ e :: rest)%list
      /\ Forall (fun x => Env.keys_length (MoreSamples.parse x) <> 0) pre
      /\ Env.keys_length (MoreSamples.parse e) = 0
      /\ Env.parsing_error "PORT" = Env.parsing_error e)
  \/ (exists path,
        Some ".env" = Some path
        /\ MoreSamples.existsSync path = true
        /\ MoreSamples.readFileSync path = Thrown (Env.parsing_error "PORT")
        /\ Forall (fun x => Env.keys_length (MoreSamples.parse x) <> 0)
             ["PORT=80"; "PORT"]).
Proof.
  exact (parseEnvs_failures MoreSamples.parse MoreSamples.existsSync
           MoreSamples.readFileSync (Some ["PORT=80"; "PORT"]) (Some ".env")
           (Env.parsing_error "PORT") eq_refl).
Defined.

(** X4.  [getEnv] throws exactly when dotenv finds no key at all in the
    text, and otherwise returns what dotenv found: a mapping it returns
    always has a key. *)
Theorem getEnv_nonempty (parse : string -> Env.obj) (e : string) :
  ((exists message, Env.getEnv parse e = Thrown message)
   <-> forall k, SMap.find k (parse e) = None)
  /\ (forall variable,
        Env.getEnv parse e = Normal variable ->
        variable = parse e /\ exists k v, SMap.find k variable = Some v).
Proof.
  assert (Z : Env.keys_length (parse e) = 0 <-> forall k, SMap.find k (parse e) = None).
  { unfold Env.keys_length. rewrite <- SMapP.cardinal_Empty. unfold SMap.Empty. split.
    - intros H k. apply SMapP.F.not_find_in_iff. intros [v Hv]. now apply (H k v).
    - intros H k v Hv. apply SMapP.F.find_mapsto_iff in Hv. rewrite H in Hv. discriminate. }
  destruct (getEnv_cases parse e) as [[C E] | [C E]]; rewrite E.
  - split.
    + split; [intros _; now apply Z | intros _; eauto].
    + discriminate.
  - split.
    + split; [intros [m Hm]; discriminate | intros H; apply Z in H; contradiction].
    + intros variable H. injection H as <-. split; [reflexivity|].
      unfold Env.keys_length in C.
      destruct (SMap.cardinal (parse e)) as [|n] eqn:N; [contradiction|].
      destruct (SMapP.cardinal_inv_2 N) as [[k v] Hkv]. cbn in Hkv.
      exists k, v. now apply SMapP.F.find_mapsto_iff.
Qed.

(** X5.  An env file that does not exist is not an error and is never
    read: when every flag has a key, [parseEnvs] returns, and the result
    holds for every key what the last flag that defines it gives. *)
Theorem parseEnvs_missing_file
    (parse : string -> Env.obj) (existsSync : string -> bool)
    (readFileSync : string -> completion string)
    (flags : list string) (path : string) :
  existsSync path = false ->
  Forall (fun x => Env.keys_length (parse x) <> 0) flags ->
  exists r,
    Env.parseEnvs parse existsSync readFileSync (Some flags) (Some path) = Normal r
    /\ Env.parseEnvs parse existsSync readFileSync (Some flags) None = Normal r
    /\ forall k, SMap.find k r = Env.last_defined parse k flags.
Proof.
  intros X F. unfold Env.parseEnvs, Env.parseEnvFile. rewrite X. cbn [negb].
  destruct (forEach_flag_returns parse flags (SMap.empty string) F) as [envs E].
  rewrite E. cbn [and_then]. eexists. split; [reflexivity|]. split; [reflexivity|].
  intros k. rewrite find_spread, SMapP.F.empty_o.
  rewrite (forEach_flag_find parse flags k _ _ E), SMapP.F.empty_o.
  now destruct (Env.last_defined parse k flags).
Qed.

Lemma parseEnvs_missing_file_witness :
  exists r,
    Env.parseEnvs MoreSamples.parse MoreSamples.existsSync MoreSamples.readFileSync
      (Some ["PORT=80"; "PORT=8080"]) (Some "missing.env") = Normal r
    /\ Env.parseEnvs MoreSamples.parse MoreSamples.existsSync MoreSamples.readFileSync
         (Some ["PORT=80"; "PORT=8080"]) None = Normal r
    /\ forall k, SMap.find k r
                 = Env.last_defined MoreSamples.parse k ["PORT=80"; "PORT=8080"].
Proof.
  apply (parseEnvs_missing_file MoreSamples.parse MoreSamples.existsSync
           MoreSamples.readFileSync ["PORT=80"; "PORT=8080"] "missing.env").
  - reflexivity.
  - repeat constructor; vm_compute; discriminate.
Defined.

(* ================================================================== *)
(** ** [buildRemoteUrlFromGit] *)
(* ================================================================== *)

Section GitFacts.
Import Git.

Lemma endsWith_spec (suffix s : string) :
  endsWith suffix s = true <-> exists pre, s = pre ++ suffix.
Proof.
  induction s as [|c s IH]; cbn [endsWith].
  - rewrite orb_false_r, String.eqb_eq. split.
    + intros <-. now exists "".
    + intros [pre E]. destruct pre; [exact E | discriminate].
  - rewrite orb_true_iff, String.eqb_eq, IH. split.
    + intros [<- | [pre ->]]; [now exists "" | now exists (String c pre)].
    + intros [[|d pre] E]; [now left | right].
      cbn in E. injection E as _ ->. now exists pre.
Qed.

End GitFacts.

(** Follow [buildRemoteUrlFromGit] along every answer: split on the next
    answer the code waits for, in the goal and in the hypotheses. *)
Ltac git_answer x :=
  lazymatch x with
  | context [Git.remotes ?w] =>
      destruct (Git.remotes w) as [[|? [|? ?]]|] eqn:?
  | context [Git.selected ?w ?v] => destruct (Git.selected w v) as [?|?] eqn:?
  | context [find ?f ?l] => destruct (find f l) as [?|] eqn:?
  | context [Git.listRemote ?w ?a] => destruct (Git.listRemote w a) as [?|?] eqn:?
  | context [Git.current ?w] => destruct (Git.current w) as [?|?] eqn:?
  | context [Git.files ?w] => destruct (Git.files w) as [[[|? ?]|]|?] eqn:?
  | context [Git.fetched ?w] => destruct (Git.fetched w) as [[]|?] eqn:?
  | context [Git.latest ?w ?r] => destruct (Git.latest w r) as [[?|]|?] eqn:?
  | context [String.eqb ?a ?b] => destruct (String.eqb_spec a b)
  end.

Ltac walk_git_in H :=
  unfold Git.buildRemoteUrlFromGit in H;
  repeat (cbn -[String.append String.eqb Git.endsWith find] in H;
          try discriminate H;
          let T := type of H in git_answer T).

Ltac walk_git :=
  unfold Git.buildRemoteUrlFromGit;
  repeat (cbv beta iota zeta delta
            [Git.next Git.error Git.done Git.ask Git.catch_error Git.has_files
             fst snd app negb];
          match goal with |- ?G => git_answer G end);
  cbv beta iota zeta delta
    [Git.next Git.error Git.done Git.ask Git.catch_error Git.has_files
     fst snd app negb].

(** X6.  [buildRemoteUrlFromGit] returns a URL only for a clone in good
    order: a remote was settled on, the working tree has no changed file,
    the fetch went through, the branch exists on the remote, and the head
    of the local branch is the head of the remote branch.  The URL is the
    fetch URL of that remote, with [.git] appended unless it ends with it
    already, then [#] and the hash of that head. *)
Theorem remote_url_only_when_level
    (w : Git.Answers) (t : list Git.call) (url : string) :
  Git.buildRemoteUrlFromGit w = (t, Normal url) ->
  exists remote branch hash refs,
    Git.chosen w = Some remote
    /\ Git.current w = Normal branch
    /\ (Git.files w = Normal None \/ Git.files w = Normal (Some []))
    /\ Git.fetched w = Normal tt
    /\ Git.listRemote w [Git.name remote; branch] = Normal refs
    /\ refs <> ""
    /\ Git.latest w branch = Normal (Some hash)
    /\ Git.latest w (Git.name remote ++ "/" ++ branch) = Normal (Some hash)
    /\ url = Git.refs_fetch remote
             ++ (if Git.endsWith ".git" (Git.refs_fetch remote) then "" else ".git")
             ++ "#" ++ hash.
Proof.
  intros H. unfold Git.chosen. walk_git_in H.
  all: injection H as <- <-; subst.
  all: do 4 eexists; repeat split; try reflexivity; eauto.
  all: cbn [map];
    match goal with E : Git.selected _ _ = _ |- _ => rewrite E end;
    assumption.
Qed.

Lemma remote_url_only_when_level_witness :
  exists remote branch hash refs,
    Git.chosen (MoreSamples.clean [MoreSamples.origin] (Thrown "no prompt"))
    = Some remote
    /\ Git.current (MoreSamples.clean [MoreSamples.origin] (Thrown "no prompt"))
       = Normal branch
    /\ (Git.files (MoreSamples.clean [MoreSamples.origin] (Thrown "no prompt"))
        = Normal None
        \/ Git.files (MoreSamples.clean [MoreSamples.origin] (Thrown "no prompt"))
           = Normal (Some []))
    /\ Git.fetched (MoreSamples.clean [MoreSamples.origin] (Thrown "no prompt"))
       = Normal tt
    /\ Git.listRemote (MoreSamples.clean [MoreSamples.origin] (Thrown "no prompt"))
         [Git.name remote; branch] = Normal refs
    /\ refs <> ""
    /\ Git.latest (MoreSamples.clean [MoreSamples.origin] (Thrown "no prompt"))
         branch = Normal (Some hash)
    /\ Git.latest (MoreSamples.clean [MoreSamples.origin] (Thrown "no prompt"))
         (Git.name remote ++ "/" ++ branch) = Normal (Some hash)
    /\ "https://github.com/acme/squid.git#4f2a"
       = Git.refs_fetch remote
         ++ (if Git.endsWith ".git" (Git.refs_fetch remote) then "" else ".git")
         ++ "#" ++ hash.
Proof.
  exact (remote_url_only_when_level
           (MoreSamples.clean [MoreSamples.origin] (Thrown "no prompt"))
           _ "https://github.com/acme/squid.git#4f2a" eq_refl).
Defined.

(** X7.  The URL [buildRemoteUrlFromGit] returns always has the form
    [<base>#<hash>] where [<base>] ends with [.git]: [<base>] is the fetch
    URL of one of the remotes if that ends with [.git], and the fetch URL
    followed by [.git] if not, so [.git] is never doubled and never
    missing. *)
Theorem remote_url_shape
    (w : Git.Answers) (t : list Git.call) (url : string) :
  Git.buildRemoteUrlFromGit w = (t, Normal url) ->
  exists remotes remote base hash,
    Git.remotes w = Normal remotes
    /\ In remote remotes
    /\ url = base ++ "#" ++ hash
    /\ Git.endsWith ".git" base = true
    /\ Git.endsWith (".git#" ++ hash) url = true
    /\ (Git.endsWith ".git" (Git.refs_fetch remote) = true ->
        base = Git.refs_fetch remote)
    /\ (Git.endsWith ".git" (Git.refs_fetch remote) = false ->
        base = Git.refs_fetch remote ++ ".git").
Proof.
  intros H.
  assert (S : forall f h,
             let base := f ++ (if Git.endsWith ".git" f then "" else ".git") in
             let whole := f ++ (if Git.endsWith ".git" f then "" else ".git") ++ "#" ++ h in
             whole = base ++ "#" ++ h
             /\ Git.endsWith ".git" base = true
             /\ Git.endsWith (".git#" ++ h) whole = true
             /\ (Git.endsWith ".git" f = true -> base = f)
             /\ (Git.endsWith ".git" f = false -> base = f ++ ".git")).
  { intros f h base whole.
    assert (U : whole = base ++ "#" ++ h)
      by (unfold whole, base; now rewrite append_assoc3).
    rewrite U. split; [reflexivity|]. unfold base.
    destruct (Git.endsWith ".git" f) eqn:E.
    - assert (N : f ++ "" = f)
        by (clear; induction f as [|c f IH]; cbn; [reflexivity | now rewrite IH]).
      rewrite N. repeat split; try congruence.
      apply endsWith_spec in E. destruct E as [pre ->].
      apply endsWith_spec. exists pre. now rewrite !append_assoc3.
    - repeat split; try congruence.
      + apply endsWith_spec. now exists f.
      + apply endsWith_spec. exists f. now rewrite !append_assoc3. }
  walk_git_in H.
  all: injection H as <- <-.
  all: match goal with
       | E : Git.remotes _ = Normal ?rs |- _ =>
           match goal with
           | |- context [Git.refs_fetch ?r ++ _ ++ String _ ?h] =>
               destruct (S (Git.refs_fetch r) h) as (S1 & S2 & S3 & S4 & S5);
               exists rs, r,
                 (Git.refs_fetch r
                  ++ (if Git.endsWith ".git" (Git.refs_fetch r) then "" else ".git")),
                 h
           end
       end.
  all: split; [reflexivity|]; split; [|repeat split; assumption].
  - now left.
  - now left.
  - match goal with E : find _ _ = Some _ |- _ => apply find_some in E; apply E end.
  - match goal with E : find _ _ = Some _ |- _ => apply find_some in E; apply E end.
Qed.

Lemma remote_url_shape_witness :
  exists remotes remote base hash,
    Git.remotes (MoreSamples.clean [MoreSamples.origin; MoreSamples.upstream]
                   (Normal "upstream")) = Normal remotes
    /\ In remote remotes
    /\ "git@github.com:subsquid/squid.git#4f2a" = base ++ "#" ++ hash
    /\ Git.endsWith ".git" base = true
    /\ Git.endsWith (".git#" ++ hash) "git@github.com:subsquid/squid.git#4f2a" = true
    /\ (Git.endsWith ".git" (Git.refs_fetch remote) = true ->
        base = Git.refs_fetch remote)
    /\ (Git.endsWith ".git" (Git.refs_fetch remote) = false ->
        base = Git.refs_fetch remote ++ ".git").
Proof.
  exact (remote_url_shape
           (MoreSamples.clean [MoreSamples.origin; MoreSamples.upstream]
              (Normal "upstream"))
           _ "git@github.com:subsquid/squid.git#4f2a" eq_refl).
Defined.

(** X8.  With a changed file in the working tree [buildRemoteUrlFromGit]
    always fails, and whatever the other answers are it neither fetches
    nor reads a log. *)
Theorem dirty_tree_is_never_fetched
    (w : Git.Answers) (file : string) (others : list string) :
  Git.files w = Normal (Some (file :: others)) ->
  filter Git.is_fetch (fst (Git.buildRemoteUrlFromGit w)) = []
  /\ filter Git.is_log (fst (Git.buildRemoteUrlFromGit w)) = []
  /\ exists message, snd (Git.buildRemoteUrlFromGit w) = Thrown message.
Proof.
  intros Hf. walk_git.
  all: try congruence.
  all: repeat split; eauto.
Qed.

Lemma dirty_tree_is_never_fetched_witness :
  filter Git.is_fetch
    (fst (Git.buildRemoteUrlFromGit (MoreSamples.dirty [MoreSamples.origin]))) = []
  /\ filter Git.is_log
       (fst (Git.buildRemoteUrlFromGit (MoreSamples.dirty [MoreSamples.origin]))) = []
  /\ exists message,
       snd (Git.buildRemoteUrlFromGit (MoreSamples.dirty [MoreSamples.origin]))
       = Thrown message.
Proof.
  exact (dirty_tree_is_never_fetched (MoreSamples.dirty [MoreSamples.origin])
           "src/processor.ts" [] eq_refl).
Defined.

(** X9.  Whatever the repository and the user answer,
    [buildRemoteUrlFromGit] reads a log only after it has fetched, fetches
    only after it has asked for the status, fetches at most once, and makes
    no call after a [command.error]. *)
Theorem git_calls_in_order (w : Git.Answers) :
  let t := fst (Git.buildRemoteUrlFromGit w) in
  GitOrder.preceded Git.is_fetch Git.is_log false t = true
  /\ GitOrder.preceded GitOrder.is_status Git.is_fetch false t = true
  /\ length (filter Git.is_fetch t) <= 1
  /\ GitOrder.error_is_last t = true.
Proof.
  cbv zeta. walk_git.
  all: cbn; repeat split; lia.
Qed.

(** X10.  A single remote is used without asking.  With several remotes
    the user is asked once, with the names of the remotes in the order git
    lists them, and a refused prompt ends the function with [Canceled]
    before the repository is asked anything else.  With no remote the
    function fails at once. *)
Theorem remotes_and_the_prompt (w : Git.Answers) (rs : list Git.RemoteWithRefs) :
  Git.remotes w = Normal rs ->
  filter Git.is_prompt (fst (Git.buildRemoteUrlFromGit w)) = GitOrder.prompt rs
  /\ (rs = [] ->
      Git.buildRemoteUrlFromGit w
      = ([Git.GetRemotes; Git.Error "The remotes were not found" (Some "1")],
         Thrown "The remotes were not found"))
  /\ (forall e,
        2 <= length rs ->
        Git.selected w (map Git.name rs) = Thrown e ->
        Git.buildRemoteUrlFromGit w
        = ([Git.GetRemotes; Git.CliSelect (map Git.name rs);
            Git.Error "Canceled" (Some "1")],
           Thrown "Canceled")).
Proof.
  intros Hr. split; [|split].
  - unfold Git.buildRemoteUrlFromGit. rewrite Hr.
    destruct rs as [|r1 [|r2 rs]]; walk_git; reflexivity.
  - intros ->. unfold Git.buildRemoteUrlFromGit. rewrite Hr. reflexivity.
  - intros e Hl Hs. unfold Git.buildRemoteUrlFromGit. rewrite Hr.
    destruct rs as [|r1 [|r2 rs]]; cbn in Hl; try lia.
    cbn -[String.append String.eqb find]. cbn [map] in Hs. rewrite Hs. reflexivity.
Qed.

Lemma remotes_and_the_prompt_witness :
  filter Git.is_prompt
    (fst (Git.buildRemoteUrlFromGit
            (MoreSamples.clean [MoreSamples.origin; MoreSamples.upstream]
               (Thrown "SIGINT"))))
  = [Git.CliSelect ["origin"; "upstream"]]
  /\ Git.buildRemoteUrlFromGit
       (MoreSamples.clean [MoreSamples.origin; MoreSamples.upstream]
          (Thrown "SIGINT"))
     = ([Git.GetRemotes; Git.CliSelect ["origin"; "upstream"];
         Git.Error "Canceled" (Some "1")],
        Thrown "Canceled").
Proof.
  destruct (remotes_and_the_prompt
              (MoreSamples.clean [MoreSamples.origin; MoreSamples.upstream]
                 (Thrown "SIGINT"))
              [MoreSamples.origin; MoreSamples.upstream] eq_refl)
    as (H1 & _ & H3).
  split; [exact H1|].
  apply (H3 "SIGINT"); [cbn; lia | reflexivity].
Defined.


(** X11.  On a clone in good order nothing fails: when a remote is
    settled on and can be listed, the working tree has no changed file, the
    fetch goes through, the branch exists on the remote and both heads have
    the same hash, [buildRemoteUrlFromGit] makes its eight calls (nine with
    the prompt) in their order and returns the URL of that remote with that
    hash. *)
Theorem level_clone_gets_its_url
    (w : Git.Answers) (rs : list Git.RemoteWithRefs) (remote : Git.RemoteWithRefs)
    (branch hash refs1 refs2 : string) (fs : option (list string)) :
  Git.remotes w = Normal rs ->
  Git.chosen w = Some remote ->
  Git.listRemote w [Git.name remote] = Normal refs1 ->
  Git.current w = Normal branch ->
  Git.files w = Normal fs ->
  Git.has_files fs = false ->
  Git.fetched w = Normal tt ->
  Git.listRemote w [Git.name remote; branch] = Normal refs2 ->
  refs2 <> "" ->
  Git.latest w branch = Normal (Some hash) ->
  Git.latest w (Git.name remote ++ "/" ++ branch) = Normal (Some hash) ->
  Git.buildRemoteUrlFromGit w
  = (GitOrder.calls_to_the_end rs (Git.name remote) branch,
     Normal (Git.refs_fetch remote
             ++ (if Git.endsWith ".git" (Git.refs_fetch remote) then "" else ".git")
             ++ "#" ++ hash)).
Proof.
  intros Hr Hc H1 Hb Hf Hh Hx H2 Hn Hl Hm.
  apply String.eqb_neq in Hn.
  unfold Git.buildRemoteUrlFromGit, Git.chosen, GitOrder.calls_to_the_end in *.
  rewrite Hr in *.
  destruct rs as [|r1 [|r2 rs]]; [discriminate Hc | injection Hc as -> |].
  - repeat (cbv beta iota zeta delta
              [Git.next Git.error Git.done Git.ask Git.catch_error fst snd app negb
               GitOrder.prompt];
            first [rewrite H1 | rewrite Hb | rewrite Hf | rewrite Hh | rewrite Hx
                  | rewrite H2 | rewrite Hn | rewrite Hl | rewrite Hm
                  | rewrite String.eqb_refl]).
    reflexivity.
  - destruct (Git.selected w (map Git.name (r1 :: r2 :: rs))) as [value|] eqn:Hs;
      [|discriminate Hc].
    repeat (cbv beta iota zeta delta
              [Git.next Git.error Git.done Git.ask Git.catch_error fst snd app negb
               GitOrder.prompt];
            first [rewrite Hs | rewrite Hc | rewrite H1 | rewrite Hb | rewrite Hf | rewrite Hh
                  | rewrite Hx | rewrite H2 | rewrite Hn | rewrite Hl | rewrite Hm
                  | rewrite String.eqb_refl]).
    reflexivity.
Qed.

Lemma level_clone_gets_its_url_witness :
  Git.buildRemoteUrlFromGit
    (MoreSamples.clean [MoreSamples.origin; MoreSamples.upstream] (Normal "origin"))
  = ([Git.GetRemotes; Git.CliSelect ["origin"; "upstream"];
      Git.ListRemote ["origin"]; Git.Branch; Git.Status; Git.Fetch;
      Git.ListRemote ["origin"; "main"]; Git.Log "main"; Git.Log "origin/main"],
     Normal "https://github.com/acme/squid.git#4f2a").
Proof.
  apply (level_clone_gets_its_url
           (MoreSamples.clean [MoreSamples.origin; MoreSamples.upstream]
              (Normal "origin"))
           [MoreSamples.origin; MoreSamples.upstream] MoreSamples.origin
           "main" "4f2a" "4f2a refs/heads/main" "4f2a refs/heads/main" (Some []));
    try reflexivity.
  discriminate.
Defined.

(* ================================================================== *)
(** ** Where a run of the poller ends *)
(* ================================================================== *)

Section PaceFacts.
Import Pace.

Lemma script_split (script : list (option DeployPipeline)) :
  script = (leading script ++ from_decisive script)%list.
Proof.
  induction script as [|r rest IH]; [reflexivity|].
  cbn [leading from_decisive]. destruct (transient r); [|reflexivity].
  cbn [app]. now rewrite <- IH.
Qed.

Lemma leading_transient (script : list (option DeployPipeline)) :
  Forall (fun r => transient r = true) (leading script).
Proof.
  induction script as [|r rest IH]; [constructor|].
  cbn [leading]. destruct (transient r) eqn:E; now constructor.
Qed.

Lemma from_decisive_head (script rest : list (option DeployPipeline))
    (r : option DeployPipeline) :
  from_decisive script = r :: rest -> transient r = false.
Proof.
  induction script as [|x xs IH]; [discriminate|].
  cbn [from_decisive]. destruct (transient x) eqn:E; [exact IH|].
  intros H. injection H as <- _. exact E.
Qed.

Lemma transient_found (r : option DeployPipeline) :
  transient r = true ->
  exists p, r = Some p /\ is_stage (status p) = true /\ isErrorOccurred p = false.
Proof.
  destruct r as [p|]; [|discriminate]. cbn. intros H.
  apply andb_true_iff in H. destruct H as [H1 H2].
  apply negb_true_iff in H2. eauto.
Qed.

Lemma transitions_app (l1 l2 : list string) :
  forall last,
    transitions last (l1 ++ l2)
    = (transitions last l1 ++ transitions (last_of last l1) l2)%list.
Proof.
  induction l1 as [|s l1 IH]; intros last; [reflexivity|].
  cbn [app transitions last_of fold_left].
  destruct (status_differs s last); cbn [app]; now rewrite IH.
Qed.

Lemma beat_app (t1 t2 : list event) : beat (t1 ++ t2) = (beat t1 ++ beat t2)%list.
Proof. apply filter_app. Qed.

Lemma beat_stop_events (s : string) (last : option string) :
  beat (stop_events s last) = [].
Proof. unfold stop_events. now destruct (status_differs s last). Qed.

Lemma beat_dump_events dim (a : Args) (p : DeployPipeline) :
  beat (dump_events dim a p) = [].
Proof. unfold dump_events. now destruct (verbose_or_default a). Qed.

Lemma beat_forwarded (l : list string) : beat (map CommandLog l) = [].
Proof. induction l as [|x l IH]; [reflexivity | exact IH]. Qed.

Variable dim : string -> string.
Variable streamed : list string.
Variable a : Args.

(** While the answers are transient the loop polls, sleeps and goes on. *)
Lemma transient_run (l : list (option DeployPipeline)) :
  forall st,
    Forall (fun r => transient r = true) l ->
    exists t st1,
      doUntil (fn dim streamed a) pause l st = (t, st1, Normal StillPolling)
      /\ beat t = rounds a (length l)
      /\ polls t = length l
      /\ stops t = map (fun _ => "✔️")
                     (transitions (lastStatus st) (found_statuses l))
      /\ starts t = map spinner (found_statuses l)
      /\ errors t = [] /\ streams t = 0 /\ logged t = []
      /\ (l <> [] -> isLogPrinted st1 = false)
      /\ lastStatus st1 = last_of (lastStatus st) (found_statuses l).
Proof.
  induction l as [|r l IH]; intros st F.
  - exists [], st. repeat split; try reflexivity. congruence.
  - inversion F as [|? ? Hr Hl]; subst.
    destruct (transient_found r Hr) as (p & -> & Hs & He).
    rewrite doUntil_cons, (fn_stage_continue _ _ _ _ _ Hs He).
    destruct (IH (mkStore (Some (status p)) false) Hl)
      as (t & st1 & E & B & P & S1 & S2 & S3 & S4 & S5 & S6 & S7).
    rewrite E. cbn [lastStatus] in *.
    exists ((GetDeployPipeline (squidName a) (versionName a)
               :: stop_events (status p) (lastStatus st)
               ++ [ActionStart (spinner (status p))])
            ++ Sleep pause :: t)%list, st1.
    split; [reflexivity|].
    cbn [found_statuses flat_map app length map transitions last_of fold_left].
    fold (found_statuses l).
    change (GetDeployPipeline (squidName a) (versionName a) :: ?x)
      with ([GetDeployPipeline (squidName a) (versionName a)] ++ x)%list.
    change (Sleep pause :: t) with ([Sleep pause] ++ t)%list.
    repeat split.
    + rewrite !beat_app, beat_stop_events, B. reflexivity.
    + tally. lia.
    + tally. now destruct (status_differs (status p) (lastStatus st)).
    + tally. reflexivity.
    + tally. reflexivity.
    + tally. lia.
    + tally. reflexivity.
    + intros _. destruct l as [|x l]; [|apply S6; discriminate].
      cbn in E. now injection E as <- <-.
    + exact S7.
Qed.

(** An answer that is not transient is a missing pipeline, a stage failure,
    [OK] or an unrecognized status. *)
Lemma decisive_cases (r : option DeployPipeline) :
  transient r = false ->
  r = None
  \/ exists p, r = Some p
       /\ ((is_stage (status p) = true /\ isErrorOccurred p = true)
           \/ status p = OK
           \/ recognized (status p) = false).
Proof.
  destruct r as [p|]; [|now left]. cbn. intros H. right. exists p.
  split; [reflexivity|].
  destruct (status_cases (status p)) as [S | [S | S]]; [|tauto|tauto].
  left. rewrite S in H. cbn in H. apply negb_false_iff in H. tauto.
Qed.

(** The tick of an answer that is not transient ends the loop. *)
Lemma decisive_tick (r : option DeployPipeline) (rest : list (option DeployPipeline))
    (st : store) :
  transient r = false ->
  doUntil (fn dim streamed a) pause (r :: rest) st
  = doUntil (fn dim streamed a) pause [r] st
  /\ completion_of (doUntil (fn dim streamed a) pause [r] st) <> Normal StillPolling.
Proof.
  intros H. rewrite !doUntil_cons.
  destruct (decisive_cases r H) as [-> | (p & -> & [[S E] | [S | S]])].
  - rewrite fn_not_found. split; [reflexivity | discriminate].
  - rewrite (fn_stage_fail _ _ _ _ _ S E). split; [reflexivity | discriminate].
  - rewrite (fn_OK _ _ _ _ _ S). split; [reflexivity | discriminate].
  - rewrite (fn_unrecognized _ _ _ _ _ S). split; [reflexivity | discriminate].
Qed.

(** A run is the run over the transient answers followed by the tick of
    the first answer that is not transient, if there is one. *)
Lemma run_decomposed (script : list (option DeployPipeline)) :
  exists t st1,
    doUntil (fn dim streamed a) pause (leading script) initial
    = (t, st1, Normal StillPolling)
    /\ beat t = rounds a (length (leading script))
    /\ polls t = length (leading script)
    /\ stops t = map (fun _ => "✔️")
                   (transitions None (found_statuses (leading script)))
    /\ errors t = [] /\ streams t = 0 /\ logged t = []
    /\ lastStatus st1 = last_of None (found_statuses (leading script))
    /\ pollDeployPipelines dim streamed a script
       = match doUntil (fn dim streamed a) pause
                 (firstn 1 (from_decisive script)) st1 with
         | (t2, st2, c) => ((t ++ t2)%list, st2, c)
         end
    /\ pollDeployPipelines dim streamed a (polled script)
       = pollDeployPipelines dim streamed a script.
Proof.
  destruct (transient_run (leading script) initial (leading_transient script))
    as (t & st1 & E & B & P & S1 & _ & S3 & S4 & S5 & _ & S7).
  exists t, st1. repeat split; try assumption.
  - unfold pollDeployPipelines. rewrite (script_split script) at 1.
    rewrite (doUntil_app _ _ _ (from_decisive script) _ _ _ E).
    destruct (from_decisive script) as [|r rest] eqn:D; [reflexivity|].
    cbn [firstn].
    now rewrite (proj1 (decisive_tick r rest st1 (from_decisive_head _ _ _ D))).
  - unfold pollDeployPipelines, polled. rewrite (script_split script) at 3.
    rewrite (doUntil_app _ _ _ (firstn 1 (from_decisive script)) _ _ _ E).
    rewrite (doUntil_app _ _ _ (from_decisive script) _ _ _ E).
    destruct (from_decisive script) as [|r rest] eqn:D; [reflexivity|].
    cbn [firstn].
    now rewrite (proj1 (decisive_tick r rest st1 (from_decisive_head _ _ _ D))).
Qed.

End PaceFacts.

(** X12.  A run of [pollDeployPipelines] asks for the answers up to and
    including the first one that is not a stage snapshot without error
    flag, and for no other: the answers after it make no difference to the
    run, and the number of polls is the number of those answers. *)
Theorem run_ends_at_first_decisive_answer
    (dim : string -> string) (streamed : list string) (a : Args)
    (script : list (option DeployPipeline)) :
  pollDeployPipelines dim streamed a script
  = pollDeployPipelines dim streamed a (Pace.polled script)
  /\ polls (trace_of (pollDeployPipelines dim streamed a script))
     = length (Pace.polled script)
  /\ (completion_of (pollDeployPipelines dim streamed a script)
      = Normal StillPolling
      <-> Pace.from_decisive script = []).
Proof.
  destruct (run_decomposed dim streamed a script)
    as (t & st1 & E & _ & P & _ & _ & _ & _ & _ & R & Q).
  split; [now rewrite Q|].
  rewrite R. unfold Pace.polled.
  destruct (Pace.from_decisive script) as [|r rest] eqn:D.
  - cbn. rewrite !app_nil_r. split; [exact P | split; intros _; reflexivity].
  - cbn [firstn].
    pose proof (proj2 (decisive_tick dim streamed a r [] st1
                         (from_decisive_head _ _ _ D))) as N.
    rewrite doUntil_cons in *.
    assert (K : polls (trace_of (fn dim streamed a r st1)) = 1).
    { destruct (decisive_cases r (from_decisive_head _ _ _ D))
        as [-> | (p & -> & [[S F] | [S | S]])].
      - now rewrite fn_not_found.
      - rewrite (fn_stage_fail _ _ _ _ _ S F). read_tick a. tally. lia.
      - rewrite (fn_OK _ _ _ _ _ S). read_tick a. tally. lia.
      - rewrite (fn_unrecognized _ _ _ _ _ S). read_tick a. tally. lia. }
    destruct (fn dim streamed a r st1) as [[t2 st2] [[|]|e]];
      unfold trace_of, completion_of in *; cbn [fst snd doUntil] in *.
    + rewrite polls_app, length_app, P, K. cbn.
      split; [lia | split; intros H; discriminate H].
    + exfalso. apply N. reflexivity.
    + rewrite polls_app, length_app, P, K. cbn.
      split; [lia | split; intros H; discriminate H].
Qed.

(** X13.  How a run ends is decided by the first answer that is not a
    stage snapshot without error flag, and by it alone.  While there is
    none the loop is still polling and nothing was logged.  A missing
    pipeline ends the run with a plain return and nothing logged.  An [OK]
    snapshot ends it with a return after one call to the streamer, whatever
    its error flag.  A stage snapshot with the error flag ends it with the
    error of that stage, an unrecognized status with the fixed error; a run
    never both calls the streamer and raises an error, and logs nothing
    before its last tick. *)
Theorem run_outcome
    (dim : string -> string) (streamed : list string) (a : Args)
    (script : list (option DeployPipeline)) :
  let run := pollDeployPipelines dim streamed a script in
  let t := trace_of run in
  match Pace.from_decisive script with
  | [] =>
      completion_of run = Normal StillPolling
      /\ errors t = [] /\ streams t = 0 /\ logged t = []
  | None :: _ =>
      completion_of run = Normal Returned
      /\ errors t = [] /\ streams t = 0 /\ logged t = []
  | Some p :: _ =>
      let dump := if verbose_or_default a then [debugText dim p] else [] in
      if status p =? OK then
        completion_of run = Normal Returned
        /\ errors t = [] /\ streams t = 1
        /\ logged t = (dump ++ running_up a :: streamed)%list
      else if is_stage (status p) then
        completion_of run = Thrown (stage_failure dim a p)
        /\ errors t = [stage_failure dim a p] /\ streams t = 0
        /\ logged t = dump
      else
        completion_of run = Thrown unexpected
        /\ errors t = [unexpected] /\ streams t = 0
        /\ logged t = dump
  end.
Proof.
  cbv zeta.
  destruct (run_decomposed dim streamed a script)
    as (t & st1 & E & _ & _ & _ & S3 & S4 & S5 & _ & R & _).
  rewrite R. clear R.
  destruct (Pace.from_decisive script) as [|r rest] eqn:D.
  - cbn. rewrite app_nil_r. now repeat split.
  - cbn [firstn]. rewrite doUntil_cons.
    destruct (decisive_cases r (from_decisive_head _ _ _ D))
      as [-> | (p & -> & [[S F] | [S | S]])].
    + rewrite fn_not_found. unfold trace_of, completion_of. cbn [fst snd].
      split; [reflexivity|]. repeat split; tally; reflexivity.
    + rewrite (fn_stage_fail _ _ _ _ _ S F), S, (stage_is_not_OK _ S).
      read_tick a. split; [reflexivity|].
      repeat split; tally; rewrite ?app_nil_r; reflexivity.
    + rewrite (fn_OK _ _ _ _ _ S), (proj2 (String.eqb_eq _ _) S).
      read_tick a. split; [reflexivity|]. repeat split; tally; reflexivity.
    + rewrite (fn_unrecognized _ _ _ _ _ S).
      pose proof S as S'. unfold recognized in S'.
      apply orb_false_iff in S'. destruct S' as [S1 S2]. rewrite S1, S2.
      read_tick a. split; [reflexivity|].
      repeat split; tally; rewrite ?app_nil_r; reflexivity.
Qed.

(** X14.  The polls and the sleeps of a run alternate: every poll asks for
    the same squid and version, every sleep lasts [3000] ms and follows a
    tick that asked for another one, and the run ends on a poll, never on a
    sleep, unless it is still polling. *)
Theorem polls_and_sleeps_alternate
    (dim : string -> string) (streamed : list string) (a : Args)
    (script : list (option DeployPipeline)) :
  Pace.beat (trace_of (pollDeployPipelines dim streamed a script))
  = (Pace.rounds a (length (Pace.leading script))
     ++ match Pace.from_decisive script with
        | [] => []
        | _ :: _ => [GetDeployPipeline (squidName a) (versionName a)]
        end)%list.
Proof.
  destruct (run_decomposed dim streamed a script)
    as (t & st1 & E & B & _ & _ & _ & _ & _ & _ & R & _).
  rewrite R. clear R.
  destruct (Pace.from_decisive script) as [|r rest] eqn:D.
  - cbn. now rewrite !app_nil_r.
  - cbn [firstn]. rewrite doUntil_cons.
    destruct (decisive_cases r (from_decisive_head _ _ _ D))
      as [-> | (p & -> & [[S F] | [S | S]])].
    + rewrite fn_not_found. unfold trace_of. cbn [fst snd].
      now rewrite beat_app, B.
    + rewrite (fn_stage_fail _ _ _ _ _ S F). read_tick a.
      rewrite !beat_app, B, beat_stop_events, beat_dump_events. reflexivity.
    + rewrite (fn_OK _ _ _ _ _ S). read_tick a.
      rewrite !beat_app, B, beat_stop_events, beat_dump_events, beat_forwarded.
      reflexivity.
    + rewrite (fn_unrecognized _ _ _ _ _ S). read_tick a.
      rewrite !beat_app, B, beat_stop_events, beat_dump_events. reflexivity.
Qed.

(** X15.  Over any sequence of answers the stop ['✔️'] is sent once for
    each change of status among the pipelines the run found, the first
    status counting as a change, and never otherwise. *)
Theorem one_stop_per_change_of_status
    (dim : string -> string) (streamed : list string) (a : Args)
    (script : list (option DeployPipeline)) :
  stops (trace_of (pollDeployPipelines dim streamed a script))
  = map (fun _ => "✔️")
      (transitions None (Pace.found_statuses (Pace.polled script))).
Proof.
  destruct (run_decomposed dim streamed a script)
    as (t & st1 & E & _ & _ & S1 & _ & _ & _ & L & R & _).
  rewrite R. clear R. unfold Pace.polled, Pace.found_statuses.
  rewrite flat_map_app. fold (Pace.found_statuses (Pace.leading script)).
  rewrite transitions_app, map_app, <- S1, <- L.
  destruct (Pace.from_decisive script) as [|r rest] eqn:D.
  - cbn. now rewrite !app_nil_r.
  - cbn [firstn]. rewrite doUntil_cons.
    destruct (decisive_cases r (from_decisive_head _ _ _ D))
      as [-> | (p & -> & [[S F] | [S | S]])].
    + rewrite fn_not_found. unfold trace_of. cbn [fst snd].
      now rewrite stops_app.
    + rewrite (fn_stage_fail _ _ _ _ _ S F). read_tick a. tally.
      now destruct (status_differs (status p) (lastStatus st1)).
    + rewrite (fn_OK _ _ _ _ _ S). read_tick a. tally.
      now destruct (status_differs (status p) (lastStatus st1)).
    + rewrite (fn_unrecognized _ _ _ _ _ S). read_tick a. tally.
      now destruct (status_differs (status p) (lastStatus st1)).
Qed.

(** X16.  The error flag of a snapshot is looked at on the four stage
    statuses only: on [OK] and on an unrecognized status the tick is the
    same whether the flag is set or not. *)
Theorem error_flag_matters_on_stages_only
    (dim : string -> string) (streamed : list string) (a : Args)
    (i s : string) (e1 e2 : bool) (l : list string) (c : Js.value) (st : store) :
  is_stage s = false ->
  fn dim streamed a (Some (mkPipeline i s e1 l c)) st
  = fn dim streamed a (Some (mkPipeline i s e2 l c)) st.
Proof.
  intros H.
  destruct (status_cases s) as [S | [S | S]]; [congruence| |].
  - now rewrite !fn_OK.
  - now rewrite !fn_unrecognized.
Qed.

Lemma error_flag_matters_on_stages_only_witness :
  fn Samples.dim_ansi Samples.two_lines Samples.my_squid
    (Some (Samples.snapshot OK true)) initial
  = fn Samples.dim_ansi Samples.two_lines Samples.my_squid
      (Some (Samples.snapshot OK false)) initial.
Proof.
  exact (error_flag_matters_on_stages_only Samples.dim_ansi Samples.two_lines
           Samples.my_squid "1024" OK true false ["step 1"; ""; "step 2"] None
           initial eq_refl).
Defined.

(** X17.  [printDebug] logs at most once per tick: a second call in the
    same tick adds nothing, and after a call in a verbose run
    [isLogPrinted] is set. *)
Theorem printDebug_once_per_tick
    (dim : string -> string) (a : Args) (p : DeployPipeline) (st : store) :
  bind (printDebug dim a p) (fun _ => printDebug dim a p) st
  = printDebug dim a p st
  /\ length (logged (trace_of (printDebug dim a p st))) <= 1
  /\ (verbose_or_default a = true ->
      isLogPrinted (store_of (printDebug dim a p st)) = true).
Proof.
  unfold printDebug, bind, get_isLogPrinted, set_isLogPrinted, emit, ret.
  destruct st as [last printed].
  destruct (verbose_or_default a), printed; cbn; repeat split; auto; discriminate.
Qed.

(** X18.  [doUntil], for any callback: a script on which the loop is still
    polling can be followed by more answers, and the loop goes on from the
    store it reached; a script on which the loop has returned or thrown
    cannot, the loop never calls the callback again. *)
Theorem doUntil_over_a_longer_script
    {R : Type} (f : R -> M bool) (ms : Z) (pre rest : list R)
    (st st1 : store) (t : list event) (c : completion loop_end) :
  doUntil f ms pre st = (t, st1, c) ->
  doUntil f ms (pre ++ rest) st
  = match c with
    | Normal StillPolling =>
        match doUntil f ms rest st1 with
        | (t2, st2, c2) => ((t ++ t2)%list, st2, c2)
        end
    | _ => (t, st1, c)
    end.
Proof.
  intros H. destruct c as [[|]|e].
  - apply (doUntil_stops f ms pre rest st st1 t _ H). discriminate.
  - apply (doUntil_app f ms pre rest st st1 t H).
  - apply (doUntil_stops f ms pre rest st st1 t _ H). discriminate.
Qed.

Lemma doUntil_over_a_longer_script_witness :
  doUntil (fn Samples.dim_ansi Samples.two_lines Samples.my_squid) pause
    ([Some (Samples.snapshot CREATED false); None]
     ++ [Some (Samples.snapshot OK false)]) initial
  = ([GetDeployPipeline "my-squid" "v1"; ActionStop "✔️";
      ActionStart "◷ Preparing your squid"; Sleep 3000;
      GetDeployPipeline "my-squid" "v1"],
     mkStore (Some CREATED) false, Normal Returned).
Proof.
  exact (doUntil_over_a_longer_script
           (fn Samples.dim_ansi Samples.two_lines Samples.my_squid) pause
           [Some (Samples.snapshot CREATED false); None]
           [Some (Samples.snapshot OK false)] initial
           (mkStore (Some CREATED) false)
           [GetDeployPipeline "my-squid" "v1"; ActionStop "✔️";
            ActionStart "◷ Preparing your squid"; Sleep 3000;
            GetDeployPipeline "my-squid" "v1"]
           (Normal Returned) eq_refl).
Defined.

(** X19.  What [parseNameAndVersion] returns can be put together again:
    whenever it returns, both names are defined, neither is empty, neither
    holds an ['@'], and the name, an ['@'] and the version make up the
    token; nothing was reported to [command.error]. *)
Theorem parsed_names_rebuild_the_token
    (s : Regex.jsstring) (st : store) (r : Parser.NameAndVersion) :
  completion_of (Parser.parseNameAndVersion s st) = Normal r ->
  exists name ver,
    Parser.squidName r = Some name
    /\ Parser.versionName r = Some ver
    /\ s = (name ++ Parser.at_sign :: ver)%list
    /\ name <> [] /\ ver <> []
    /\ ~ In Parser.at_sign name /\ ~ In Parser.at_sign ver
    /\ trace_of (Parser.parseNameAndVersion s st) = [].
Proof.
  intros H.
  destruct (Parser.no_name_at_version s
            || negb (Parser.count_at s =? 1)%nat) eqn:G.
  - rewrite (parse_throws s st G) in H. discriminate.
  - rewrite (parse_returns s st G) in *. cbn in H. injection H as <-.
    apply guard_spec in G. destruct G as [C (l1 & x & y & l2 & -> & _ & _)].
    assert (E : (l1 ++ x :: Parser.at_sign :: y :: l2)%list
                = ((l1 ++ [x]) ++ Parser.at_sign :: y :: l2)%list)
      by now rewrite <- app_assoc.
    rewrite E in *.
    destruct (one_at_parts _ _ C) as [Hn Hv].
    exists (l1 ++ [x])%list, (y :: l2). cbn [Parser.squidName Parser.versionName].
    rewrite (split_at_first _ _ Hn), (split_at_without _ Hv).
    repeat split; try assumption; try discriminate.
    intros N. apply app_eq_nil in N. destruct N; discriminate.
Qed.

Lemma parsed_names_rebuild_the_token_witness :
  exists name ver,
    Some (Parser.units "my-squid") = Some name
    /\ Some (Parser.units "v1") = Some ver
    /\ Parser.units "my-squid@v1" = (name ++ Parser.at_sign :: ver)%list
    /\ name <> [] /\ ver <> []
    /\ ~ In Parser.at_sign name /\ ~ In Parser.at_sign ver
    /\ trace_of (Parser.parseNameAndVersion (Parser.units "my-squid@v1") initial) = [].
Proof.
  exact (parsed_names_rebuild_the_token (Parser.units "my-squid@v1") initial
           (Parser.mkNameAndVersion (Some (Parser.units "my-squid"))
              (Some (Parser.units "v1")))
           eq_refl).
Defined.
